(** * voice-call-timer: a shallow embedding of [src/index.js]

    The service keeps three in-memory [Map]s ([activeCalls], [members],
    [timers]), arms one-shot timers with [setTimeout] and ends a call through
    the telephony provider when a timer fires.  This file embeds the helpers
    ([obfuscatePhone], [parseDuration]), the two HTTP handlers and [endCall]
    as executable definitions and proves properties of them.

    Modelling conventions.
    - A JavaScript value that can reach the handlers (a field of a JSON body,
      or [undefined] for a missing field) is a [JsValue].  Numbers are taken
      to be integers ([Z]); the code only inspects numbers coming from the
      request through truthiness and [typeof], for which a non-integer behaves
      like any non-zero integer.  The numbers the program computes itself
      (the parsed duration and its products) are doubles, see [JsNumber].
    - A string is a [string] whose characters stand for UTF-16 code units.
    - A [Map] is a [gmap] keyed by [JsValue]; Leibniz equality on [JsValue]
      coincides with the SameValueZero comparison of [Map] (objects and
      arrays carry their reference).
    - [setTimeout]/[clearTimeout] act on an explicit table of scheduled
      timers, the part of the runtime the program shares with the event
      loop. *)

From stdpp Require Import gmap strings list fin_maps.
From Stdlib Require Import ZArith Ascii String Lia.

Local Open Scope string_scope.
Local Open Scope Z_scope.

(** ** JavaScript values *)

Inductive JsValue : Type :=
| JUndefined
| JNull
| JBool (b : bool)
| JNum (n : Z)
| JStr (s : string)
| JObj (ref : N).   (* an object or an array, compared by reference *)

Definition JsValue_enc (v : JsValue) : unit + (unit + (bool + (Z + (string + N)))) :=
  match v with
  | JUndefined => inl tt
  | JNull => inr (inl tt)
  | JBool b => inr (inr (inl b))
  | JNum n => inr (inr (inr (inl n)))
  | JStr s => inr (inr (inr (inr (inl s))))
  | JObj r => inr (inr (inr (inr (inr r))))
  end.

Definition JsValue_dec (x : unit + (unit + (bool + (Z + (string + N))))) : JsValue :=
  match x with
  | inl _ => JUndefined
  | inr (inl _) => JNull
  | inr (inr (inl b)) => JBool b
  | inr (inr (inr (inl n))) => JNum n
  | inr (inr (inr (inr (inl s)))) => JStr s
  | inr (inr (inr (inr (inr r)))) => JObj r
  end.

#[global] Instance JsValue_eq_dec : EqDecision JsValue.
Proof. solve_decision. Defined.

#[global] Instance JsValue_countable : Countable JsValue.
Proof.
  apply (inj_countable' JsValue_enc JsValue_dec).
  intros []; reflexivity.
Defined.

(** ToBoolean: what [!v], [v || d] and [if (v)] look at. *)
Definition truthy (v : JsValue) : bool :=
  match v with
  | JUndefined | JNull => false
  | JBool b => b
  | JNum n => negb (n =? 0)
  | JStr s => negb (String.eqb s "")
  | JObj _ => true
  end.

(** [a || b] *)
Definition js_or (a b : JsValue) : JsValue := if truthy a then a else b.

(** [typeof v === 'string'] *)
Definition is_string (v : JsValue) : bool :=
  match v with JStr _ => true | _ => false end.

(** Abrupt completion of a function body. *)
Inductive JsError : Type :=
| TypeError          (* calling a property that is not a function *)
| ProviderError.     (* the call-control request was rejected *)

Inductive Completion (A : Type) : Type :=
| Normal (a : A)
| Throw (e : JsError).
Arguments Normal {A} a.
Arguments Throw {A} e.

(** ** Numbers *)

(** The numbers the service computes are durations: non-negative doubles
    with an integer value.  Every double from 2^53 on is an integer, so such
    a number is an integer or [Infinity]. *)
Inductive JsNumber : Type :=
| Finite (z : Z)
| Infinity.

Coercion Finite : Z >-> JsNumber.

(** The double nearest to a non-negative integer [z]: [z] itself below 2^53,
    otherwise [z] rounded to a 53-bit significand, halves to the even
    neighbour, and [Infinity] once that reaches 2^1024.  This is the number
    value of a mathematical integer in ECMAScript and the result of an IEEE
    754 multiplication whose exact product is [z]. *)
Definition to_double (z : Z) : JsNumber :=
  if z <? 2 ^ 53 then Finite z
  else
    let e := Z.log2 z - 52 in
    let q := z / 2 ^ e in
    let r := z mod 2 ^ e in
    let half := 2 ^ (e - 1) in
    let q' := if r <? half then q
              else if half <? r then q + 1
              else if Z.even q then q else q + 1 in
    let v := q' * 2 ^ e in
    if 2 ^ 1024 <=? v then Infinity else Finite v.

(** [a * k] for a positive integer constant [k]. *)
Definition times (a : JsNumber) (k : Z) : JsNumber :=
  match a with
  | Finite z => to_double (z * k)
  | Infinity => Infinity
  end.

(** [a >= k] *)
Definition js_ge (a : JsNumber) (k : Z) : bool :=
  match a with
  | Finite z => k <=? z
  | Infinity => true
  end.

(** ** String primitives *)

(** [String.prototype.slice(start, end)] with signed indices. *)
Definition clamp_index (len i : Z) : Z :=
  if i <? 0 then Z.max (len + i) 0 else Z.min i len.

Definition slice (s : string) (start stop : Z) : string :=
  let len := Z.of_nat (String.length s) in
  let from := clamp_index len start in
  let to := clamp_index len stop in
  substring (Z.to_nat from) (Z.to_nat (Z.max (to - from) 0)) s.

(** The class [\d] (without the unicode flag: exactly 0-9). *)
Definition is_digit (c : ascii) : bool :=
  let n := N_of_ascii c in ((48 <=? n) && (n <=? 57))%N.

(** The class [[sm]]. *)
Definition is_unit (c : ascii) : bool :=
  Ascii.eqb c "s" || Ascii.eqb c "m".

Definition digit_value (c : ascii) : Z := Z.of_N (N_of_ascii c) - 48.

(** The mathematical integer a run of decimal digits denotes, read from the
    left ([mathInt] in the definition of [parseInt]). *)
Fixpoint mathInt_from (acc : Z) (s : string) : Z :=
  match s with
  | EmptyString => acc
  | String c r => mathInt_from (acc * 10 + digit_value c) r
  end.

(** [parseInt(digits, 10)] on a run of decimal digits: the number value of
    the integer the digits denote.  (ECMAScript lets an implementation read
    the digits after the 20th significant one as zeros; Node's engine
    converts the whole numeral, which is what is modelled.) *)
Definition parseInt (s : string) : JsNumber := to_double (mathInt_from 0 s).

(** The greedy group [(\d+)]: the longest run of digits at the front, and
    what follows it. *)
Fixpoint span_digits (s : string) : string * string :=
  match s with
  | EmptyString => (EmptyString, EmptyString)
  | String c r =>
      if is_digit c
      then let '(ds, rest) := span_digits r in (String c ds, rest)
      else (EmptyString, s)
  end.

(** [durationStr.match(/^(\d+)([sm])$/)]: the two captured groups, or [None]
    for a [null] result.  Digits and units are disjoint classes, so giving
    back digits cannot make a failed match succeed; [$] without the [m] flag
    matches at the very end of the input only. *)
Definition match_duration (s : string) : option (string * ascii) :=
  match span_digits s with
  | (String d ds, String u EmptyString) =>
      if is_unit u then Some (String d ds, u) else None
  | _ => None
  end.

(** ** Helpers of the service *)

Definition DEFAULT_TIME_LIMIT : Z := 2 * 60 * 1000.

Definition obfuscatePhone (phoneNumber : JsValue) : string :=
  if negb (truthy phoneNumber) || negb (is_string phoneNumber) then "unknown"
  else match phoneNumber with
       | JStr s =>
           if 5 <=? Z.of_nat (String.length s)
           then slice s 0 (-5) +:+ "xxxxx"
           else "xxxxx"
       | _ => "unknown"
       end.

Definition parseDuration (durationStr : JsValue) : Completion JsNumber :=
  if negb (truthy durationStr) then Normal (Finite DEFAULT_TIME_LIMIT)
  else match durationStr with
       | JStr s =>
           match match_duration s with
           | None => Normal (Finite DEFAULT_TIME_LIMIT)
           | Some (digits, unit) =>
               let value := parseInt digits in
               if Ascii.eqb unit "s" then Normal (times value 1000)
               else if Ascii.eqb unit "m" then Normal (times (times value 60) 1000)
               else Normal (Finite DEFAULT_TIME_LIMIT)
           end
       | _ => Throw TypeError   (* [durationStr.match] is not a function *)
       end.

(** ** State of the service and of the timer runtime *)

(** [event.data.metadata]: the provider call identifier and whatever else the
    webhook carries. *)
Record Metadata : Type := mkMetadata {
  md_callSid : JsValue;
  md_other : list (string * JsValue)
}.

(** A value of [activeCalls]. *)
Record CallData : Type := mkCallData {
  callSid : JsValue;
  startTime : Z;
  metadata : Metadata
}.

(** A value of [members]. *)
Record Member : Type := mkMember {
  timeLimit : JsNumber;
  endMessage : JsValue
}.

(** A [Timeout] handle, as returned by [setTimeout]. *)
Definition Timeout : Type := N.

(** What a scheduled timer will do: both callbacks of the program are
    [() => endCall(userID, callSid)]. *)
Record TimerTask : Type := mkTimerTask {
  task_userID : JsValue;
  task_callSid : JsValue;
  task_delay : JsNumber
}.

Record State : Type := mkState {
  activeCalls : gmap JsValue CallData;
  members : gmap JsValue Member;
  timers : gmap JsValue Timeout;
  (* the runtime: timers that are scheduled and have neither fired nor been
     cleared, the next fresh handle, and the [endCall] invocations suspended
     at their [await] *)
  scheduled : gmap Timeout TimerTask;
  nextTimeout : Timeout;
  awaiting : list (JsValue * JsValue)
}.

Definition initial : State :=
  {| activeCalls := ∅; members := ∅; timers := ∅;
     scheduled := ∅; nextTimeout := 0%N; awaiting := [] |}.

Definition with_activeCalls (f : gmap JsValue CallData → gmap JsValue CallData)
    (st : State) : State :=
  {| activeCalls := f (activeCalls st); members := members st;
     timers := timers st; scheduled := scheduled st;
     nextTimeout := nextTimeout st; awaiting := awaiting st |}.

Definition with_members (f : gmap JsValue Member → gmap JsValue Member)
    (st : State) : State :=
  {| activeCalls := activeCalls st; members := f (members st);
     timers := timers st; scheduled := scheduled st;
     nextTimeout := nextTimeout st; awaiting := awaiting st |}.

Definition with_timers (f : gmap JsValue Timeout → gmap JsValue Timeout)
    (st : State) : State :=
  {| activeCalls := activeCalls st; members := members st;
     timers := f (timers st); scheduled := scheduled st;
     nextTimeout := nextTimeout st; awaiting := awaiting st |}.

Definition with_scheduled (f : gmap Timeout TimerTask → gmap Timeout TimerTask)
    (st : State) : State :=
  {| activeCalls := activeCalls st; members := members st;
     timers := timers st; scheduled := f (scheduled st);
     nextTimeout := nextTimeout st; awaiting := awaiting st |}.

Definition with_awaiting (f : list (JsValue * JsValue) → list (JsValue * JsValue))
    (st : State) : State :=
  {| activeCalls := activeCalls st; members := members st;
     timers := timers st; scheduled := scheduled st;
     nextTimeout := nextTimeout st; awaiting := f (awaiting st) |}.

(** ** Observable effects *)

(** [formattedTime]: which of the two templates is used, with the limit it
    renders. *)
Inductive FormattedTime : Type :=
| Minutes (ms : JsNumber)    (* `${ms / 60000} minutes` *)
| Seconds (ms : JsNumber).   (* `${ms / 1000} seconds` *)

Definition formatTime (timeLimit : JsNumber) : FormattedTime :=
  if js_ge timeLimit 60000 then Minutes timeLimit else Seconds timeLimit.

(** The verbs of the TwiML document sent to the provider. *)
Inductive Verb : Type :=
| Pause (length : Z)
| Say (text : JsValue)
| Hangup.

(** One constructor per [console.log]/[console.error] of the program, with
    the values interpolated into it. *)
Inductive LogLine : Type :=
| MemberRegistered (safeUserID : string) (t : FormattedTime)
| FoundActiveCall (safeUserID : string)
| ClearedPreviousTimer (safeUserID : string)
| TimerSet (t : FormattedTime)
| NoActiveCallFound (safeUserID : string)
| CallStarted (sid : JsValue) (safeUserID : string) (at_ms : Z)
| NoTimeLimitSet (safeUserID : string)
| StartingTimer (safeUserID : string) (t : FormattedTime)
| CallEnded (sid : JsValue) (safeUserID : string)
| TimerCleared (safeUserID : string)
| MemberDataCleared (safeUserID : string)
| CallCleanupCompleted (safeUserID : string)
| NoLongerActive (safeUserID : string)
| TimeLimitReached (safeUserID : string) (sid : JsValue)
| InitializeTwilioClient
| SendingTwiML (twiml : list Verb)
| SuccessfullyEnded (sid : JsValue)
| ErrorEndingCall (e : JsError)     (* [error.message] *)
| ErrorStack (e : JsError).         (* [error.stack] *)

Inductive Effect : Type :=
| ConsoleLog (line : LogLine)
| CallsUpdate (sid : JsValue) (twiml : list Verb).   (* [client.calls(sid).update({ twiml })] *)

Inductive Body : Type :=
| ErrorBody (error : string)
| SuccessBody (success : bool).

Record Response : Type := mkResponse {
  status : Z;
  body : Body
}.

(** ** The monad of handler bodies: state, effect trace, exceptions *)

Definition M (A : Type) : Type := State → Completion A * State * list Effect.

#[global] Instance M_ret : MRet M := λ A a st, (Normal a, st, []).

#[global] Instance M_bind : MBind M := λ A B f m st,
  match m st with
  | (Normal a, st1, t1) =>
      let '(r, st2, t2) := f a st1 in (r, st2, (t1 ++ t2)%list)
  | (Throw e, st1, t1) => (Throw e, st1, t1)
  end.

Definition gets {A : Type} (f : State → A) : M A := λ st, (Normal (f st), st, []).

Definition modify (f : State → State) : M unit := λ st, (Normal tt, f st, []).

Definition emit (e : Effect) : M unit := λ st, (Normal tt, st, [e]).

Definition console_log (l : LogLine) : M unit := emit (ConsoleLog l).

Definition liftC {A : Type} (c : Completion A) : M A := λ st, (c, st, []).

(** [try { m } catch (error) { handler error }] *)
Definition try_catch (m : M unit) (handler : JsError → M unit) : M unit := λ st,
  match m st with
  | (Normal a, st1, t1) => (Normal a, st1, t1)
  | (Throw e, st1, t1) =>
      let '(r, st2, t2) := handler e st1 in (r, st2, (t1 ++ t2)%list)
  end.

(** [setTimeout(() => endCall(userID, callSid), delay)] *)
Definition setTimeout (task : TimerTask) : M Timeout := λ st,
  let h := nextTimeout st in
  (Normal h,
   {| activeCalls := activeCalls st; members := members st;
      timers := timers st; scheduled := <[h := task]> (scheduled st);
      nextTimeout := N.succ h; awaiting := awaiting st |},
   []).

(** [clearTimeout(h)]; [clearTimeout(undefined)] does nothing. *)
Definition clearTimeout (h : option Timeout) : M unit :=
  match h with
  | Some h => modify (with_scheduled (delete h))
  | None => mret tt
  end.

(** ** The endpoints *)

Definition DEFAULT_END_MESSAGE : string :=
  "You have reached your time limit. The call will now end. Goodbye.".

(** [req.body] of [POST /api/member]; a missing field is [JUndefined]. *)
Record MemberBody : Type := mkMemberBody {
  req_userID : JsValue;
  req_duration : JsValue;
  req_endMessage : JsValue
}.

(** [app.post('/api/member', ...)] *)
Definition post_api_member (req : MemberBody) : M Response :=
  let userID := req_userID req in
  if negb (truthy userID)
  then mret {| status := 400; body := ErrorBody "userID is required" |}
  else
    timeLimit ← liftC (parseDuration (req_duration req));
    let safeUserID := obfuscatePhone userID in
    modify (with_members
              <[userID := {| timeLimit := timeLimit;
                             endMessage := js_or (req_endMessage req)
                                             (JStr DEFAULT_END_MESSAGE) |}]>);;
    let formattedTime := formatTime timeLimit in
    console_log (MemberRegistered safeUserID formattedTime);;
    active ← gets (λ st, activeCalls st !! userID);
    match active with
    | Some callData =>
        console_log (FoundActiveCall safeUserID);;
        previous ← gets (λ st, timers st !! userID);
        match previous with
        | Some h =>
            clearTimeout (Some h);;
            modify (with_timers (delete userID));;
            console_log (ClearedPreviousTimer safeUserID)
        | None => mret tt
        end;;
        timer ← setTimeout {| task_userID := userID;
                              task_callSid := callSid callData;
                              task_delay := timeLimit |};
        modify (with_timers <[userID := timer]>);;
        console_log (TimerSet formattedTime)
    | None => console_log (NoActiveCallFound safeUserID)
    end;;
    mret {| status := 200; body := SuccessBody true |}.

(** [req.body] of [POST /api/call-webhook]: the type discriminator and
    [event.data], taken to have the shape the handlers destructure. *)
Record CallEvent : Type := mkCallEvent {
  ev_type : JsValue;
  ev_userID : JsValue;
  ev_metadata : Metadata
}.

(** [handleCallStart(event)]; [currentTime] is what [Date.now()] returns. *)
Definition handleCallStart (event : CallEvent) (currentTime : Z) : M unit :=
  let userID := ev_userID event in
  let sid := md_callSid (ev_metadata event) in
  let safeUserID := obfuscatePhone userID in
  console_log (CallStarted sid safeUserID currentTime);;
  modify (with_activeCalls
            <[userID := {| callSid := sid; startTime := currentTime;
                           metadata := ev_metadata event |}]>);;
  registered ← gets (λ st, members st !! userID);
  match registered with
  | None => console_log (NoTimeLimitSet safeUserID)
  | Some member =>
      let timeLimit := timeLimit member in
      let formattedTime := formatTime timeLimit in
      console_log (StartingTimer safeUserID formattedTime);;
      timer ← setTimeout {| task_userID := userID; task_callSid := sid;
                            task_delay := timeLimit |};
      modify (with_timers <[userID := timer]>)
  end.

(** [handleCallEnd(event)] *)
Definition handleCallEnd (event : CallEvent) : M unit :=
  let userID := ev_userID event in
  let sid := md_callSid (ev_metadata event) in
  let safeUserID := obfuscatePhone userID in
  console_log (CallEnded sid safeUserID);;
  armed ← gets (λ st, timers st !! userID);
  match armed with
  | Some h =>
      clearTimeout (Some h);;
      modify (with_timers (delete userID));;
      console_log (TimerCleared safeUserID)
  | None => mret tt
  end;;
  modify (with_activeCalls (delete userID));;
  registered ← gets (λ st, members st !! userID);
  match registered with
  | Some _ =>
      modify (with_members (delete userID));;
      console_log (MemberDataCleared safeUserID)
  | None => mret tt
  end;;
  console_log (CallCleanupCompleted safeUserID).

(** [app.post('/api/call-webhook', ...)] *)
Definition post_api_call_webhook (event : CallEvent) (now : Z) : M Response :=
  (if bool_decide (ev_type event = JStr "runtime.call.start")
   then handleCallStart event now
   else if bool_decide (ev_type event = JStr "runtime.call.end")
   then handleCallEnd event
   else mret tt);;
  mret {| status := 200; body := SuccessBody true |}.

(** ** Ending a call *)

(** How the promise of [client.calls(callSid).update(...)] settles.  Any
    exception raised while the client is built or the request is sent lands
    in the same [catch] and is a rejection here. *)
Inductive Outcome : Type :=
| Resolved
| Rejected.

(** The [catch] block of [endCall]: two [console.error] lines, no state
    change. *)
Definition endCall_catch (error : JsError) : M unit :=
  console_log (ErrorEndingCall error);;
  console_log (ErrorStack error).

(** [endCall] up to its [await].  The result tells whether the function
    returned ([false]) or is suspended on the provider's answer ([true]). *)
Definition endCall_request (userID sid : JsValue) : M bool :=
  let safeUserID := obfuscatePhone userID in
  active ← gets (λ st, activeCalls st !! userID);
  match active with
  | None => console_log (NoLongerActive safeUserID);; mret false
  | Some _ =>
      console_log (TimeLimitReached safeUserID sid);;
      registered ← gets (λ st, members st !! userID);
      let message :=
        match registered with
        | Some member => endMessage member
        | None => JStr DEFAULT_END_MESSAGE
        end in
      console_log InitializeTwilioClient;;
      let twiml := [Pause 2; Say message; Hangup] in
      console_log (SendingTwiML twiml);;
      emit (CallsUpdate sid twiml);;
      mret true
  end.

(** [endCall] from its [await] on, inside the [try]. *)
Definition endCall_settle (userID sid : JsValue) (o : Outcome) : M unit :=
  try_catch
    (match o with
     | Rejected => liftC (Throw ProviderError)
     | Resolved =>
         console_log (SuccessfullyEnded sid);;
         h ← gets (λ st, timers st !! userID);
         clearTimeout h;;
         modify (with_timers (delete userID));;
         modify (with_activeCalls (delete userID));;
         modify (with_members (delete userID))
     end)
    endCall_catch.

(** [endCall(userID, callSid)] run to completion with nothing else scheduled
    in between. *)
Definition endCall (userID sid : JsValue) (o : Outcome) : M unit :=
  suspended ← endCall_request userID sid;
  if (suspended : bool) then endCall_settle userID sid o else mret tt.

(** ** The event loop *)

Inductive Input : Type :=
| PostMember (req : MemberBody)
| PostCallWebhook (event : CallEvent) (now : Z)
| TimerFires (h : Timeout)
| ProviderSettles (k : nat) (o : Outcome).   (* the k-th request in flight settles *)

Definition exec {A : Type} (m : M A) (st : State) : State := (m st).1.2.

(** One turn of the event loop; [None] when the input is not enabled. *)
Definition turn (st : State) (i : Input) : option State :=
  match i with
  | PostMember req => Some (exec (post_api_member req) st)
  | PostCallWebhook event now => Some (exec (post_api_call_webhook event now) st)
  | TimerFires h =>
      match scheduled st !! h with
      | None => None
      | Some task =>
          let st1 := with_scheduled (delete h) st in
          let '(r, st2, _) := endCall_request (task_userID task) (task_callSid task) st1 in
          match r with
          | Normal true =>
              Some (with_awaiting
                      (λ l, l ++ [(task_userID task, task_callSid task)])%list st2)
          | _ => Some st2
          end
      end
  | ProviderSettles k o =>
      match awaiting st !! k with
      | None => None
      | Some (userID, sid) =>
          Some (exec (endCall_settle userID sid o) (with_awaiting (delete k) st))
      end
  end.

Fixpoint run (st : State) (inputs : list Input) : option State :=
  match inputs with
  | [] => Some st
  | i :: rest =>
      match turn st i with
      | Some st' => run st' rest
      | None => None
      end
  end.

Definition reachable (st : State) : Prop :=
  ∃ inputs, run initial inputs = Some st.

(** The live timers aimed at one caller. *)
Definition live_timers (st : State) (userID : JsValue) : list Timeout :=
  (map_to_list (filter (λ e, task_userID e.2 = userID) (scheduled st))).*1.

(** ** The duration grammar, in the words of the specification *)

Fixpoint all_digits (s : string) : bool :=
  match s with
  | EmptyString => true
  | String c r => is_digit c && all_digits r
  end.

Fixpoint all_zeros (s : string) : bool :=
  match s with
  | EmptyString => true
  | String c r => Ascii.eqb c "0" && all_zeros r
  end.

(** The number a run of decimal digits denotes: each digit weighted by the
    power of ten of its position. *)
Fixpoint decimal (s : string) : Z :=
  match s with
  | EmptyString => 0
  | String c r => digit_value c * 10 ^ Z.of_nat (String.length r) + decimal r
  end.

(** A run of [n] copies of one character. *)
Fixpoint run_of (c : ascii) (n : nat) : string :=
  match n with
  | O => EmptyString
  | S n' => String c (run_of c n')
  end.

(** One or more decimal digits immediately followed by a single unit
    character, [s] or [m], and nothing else. *)
Definition duration_token (s : string) (digits : string) (unit : ascii) : Prop :=
  s = digits +:+ String unit EmptyString ∧
  digits ≠ EmptyString ∧
  all_digits digits = true ∧
  (unit = "s"%char ∨ unit = "m"%char).

(** ** Derived notions used in the statements *)

(** The [members] entry written by an accepted registration, and the
    response it gets. *)
Definition registered_member (req : MemberBody) (ms : JsNumber) : Member :=
  {| timeLimit := ms;
     endMessage := js_or (req_endMessage req) (JStr DEFAULT_END_MESSAGE) |}.

Definition success : Response := {| status := 200; body := SuccessBody true |}.

(** The state after the cleanup at the end of [endCall]'s [try] block. *)
Definition cleaned_up (userID : JsValue) (st : State) : State :=
  with_members (delete userID)
    (with_activeCalls (delete userID)
       (with_timers (delete userID)
          (match timers st !! userID with
           | Some h => with_scheduled (delete h) st
           | None => st
           end))).

(** ** A caller on the line: sample requests and scenarios *)

Definition caller : JsValue := JStr "+15551230000".

Definition registration (duration : string) : MemberBody :=
  {| req_userID := caller; req_duration := JStr duration;
     req_endMessage := JUndefined |}.

Definition call_start (sid : string) : CallEvent :=
  {| ev_type := JStr "runtime.call.start"; ev_userID := caller;
     ev_metadata := {| md_callSid := JStr sid; md_other := [] |} |}.

(** A registration followed by two call-start events for the same caller,
    with no call-end in between. *)
Definition overlapping_calls : list Input :=
  [PostMember (registration "5m");
   PostCallWebhook (call_start "CA1") 1000;
   PostCallWebhook (call_start "CA2") 2000].

(** A registration, the start of the call, and a second registration while
    the call is in progress. *)
Definition rearmed_call : list Input :=
  [PostMember (registration "1s");
   PostCallWebhook (call_start "CA1") 1000;
   PostMember (registration "5m")].

(** The caller registered with a one-second budget, then the call started:
    one timer is armed. *)
Definition in_call : State :=
  exec (post_api_call_webhook (call_start "CA1") 1000)
    (exec (post_api_member (registration "1s")) initial).

(** ** The call webhook: derived notions and sample events *)

(** The [activeCalls] entry written by [handleCallStart]. *)
Definition started (event : CallEvent) (currentTime : Z) : CallData :=
  {| callSid := md_callSid (ev_metadata event); startTime := currentTime;
     metadata := ev_metadata event |}.

(** The timer that [handleCallStart] arms for a registered caller. *)
Definition start_task (event : CallEvent) (member : Member) : TimerTask :=
  {| task_userID := ev_userID event;
     task_callSid := md_callSid (ev_metadata event);
     task_delay := timeLimit member |}.

Definition call_end (sid : string) : CallEvent :=
  {| ev_type := JStr "runtime.call.end"; ev_userID := caller;
     ev_metadata := {| md_callSid := JStr sid; md_other := [] |} |}.

(** The [Say] text of the TwiML that [endCall] sends for a caller. *)
Definition end_message_for (st : State) (userID : JsValue) : JsValue :=
  match members st !! userID with
  | Some member => endMessage member
  | None => JStr DEFAULT_END_MESSAGE
  end.

(** ** Bookkeeping invariants *)

(** What the entries of [timers] promise: the handle was handed out by
    [setTimeout], the caller has an active call and a registration, and the
    timer, while it is still scheduled, is aimed at the caller's current call
    with the registered limit as its delay. *)
Definition timers_consistent (st : State) : Prop :=
  ∀ userID h, timers st !! userID = Some h →
    is_Some (activeCalls st !! userID) ∧
    is_Some (members st !! userID) ∧
    ∀ task, scheduled st !! h = Some task →
      task_userID task = userID ∧
      (callSid <$> activeCalls st !! userID) = Some (task_callSid task) ∧
      (timeLimit <$> members st !! userID) = Some (task_delay task).

(** Every handle kept in [timers] came out of [setTimeout]. *)
Definition handles_issued (st : State) : Prop :=
  ∀ userID h, timers st !! userID = Some h → (h < nextTimeout st)%N.

Definition bookkeeping (st : State) : Prop :=
  handles_issued st ∧ timers_consistent st.

(** Every scheduled timer is the one [timers] holds for its caller. *)
Definition tracked_only (st : State) : Prop :=
  ∀ h task, scheduled st !! h = Some task →
    timers st !! task_userID task = Some h.

(** A call-start event is orderly when the caller has no timer that is
    tracked and still scheduled, that is, when the previous call of that
    caller was ended (or its timer has fired) before the next one starts. *)
Definition orderly (st : State) (i : Input) : Prop :=
  match i with
  | PostCallWebhook event _ =>
      ev_type event = JStr "runtime.call.start" →
      ∀ h, timers st !! ev_userID event = Some h → scheduled st !! h = None
  | _ => True
  end.

Fixpoint all_orderly (st : State) (inputs : list Input) : Prop :=
  match inputs with
  | [] => True
  | i :: rest =>
      orderly st i ∧
      match turn st i with
      | Some st' => all_orderly st' rest
      | None => True
      end
  end.

(** The caller whose call an input starts, if it is a call-start event. *)
Definition starting (i : Input) : option JsValue :=
  match i with
  | PostCallWebhook event _ =>
      if bool_decide (ev_type event = JStr "runtime.call.start")
      then Some (ev_userID event) else None
  | _ => None
  end.

(** What one turn does to the registries and the timer table; the index is
    the caller whose call the turn starts, if any. *)
Inductive turn_effect (st st' : State) : option JsValue → Prop :=
| effect_none :
    activeCalls st' = activeCalls st → members st' = members st →
    timers st' = timers st → nextTimeout st' = nextTimeout st →
    (scheduled st' = scheduled st ∨ ∃ h, scheduled st' = delete h (scheduled st)) →
    turn_effect st st' None
| effect_registered (userID : JsValue) (member : Member) :
    activeCalls st !! userID = None →
    activeCalls st' = activeCalls st →
    members st' = <[userID := member]> (members st) →
    timers st' = timers st → nextTimeout st' = nextTimeout st →
    scheduled st' = scheduled st →
    turn_effect st st' None
| effect_rearmed (userID : JsValue) (member : Member) (callData : CallData) :
    activeCalls st !! userID = Some callData →
    activeCalls st' = activeCalls st →
    members st' = <[userID := member]> (members st) →
    timers st' = <[userID := nextTimeout st]> (timers st) →
    nextTimeout st' = N.succ (nextTimeout st) →
    scheduled st' =
      <[nextTimeout st := {| task_userID := userID;
                             task_callSid := callSid callData;
                             task_delay := timeLimit member |}]>
        (match timers st !! userID with
         | Some h => delete h (scheduled st)
         | None => scheduled st
         end) →
    turn_effect st st' None
| effect_started_untimed (userID : JsValue) (callData : CallData) :
    members st !! userID = None →
    activeCalls st' = <[userID := callData]> (activeCalls st) →
    members st' = members st → timers st' = timers st →
    nextTimeout st' = nextTimeout st → scheduled st' = scheduled st →
    turn_effect st st' (Some userID)
| effect_started_timed (userID : JsValue) (callData : CallData) (member : Member) :
    members st !! userID = Some member →
    activeCalls st' = <[userID := callData]> (activeCalls st) →
    members st' = members st →
    timers st' = <[userID := nextTimeout st]> (timers st) →
    nextTimeout st' = N.succ (nextTimeout st) →
    scheduled st' =
      <[nextTimeout st := {| task_userID := userID;
                             task_callSid := callSid callData;
                             task_delay := timeLimit member |}]> (scheduled st) →
    turn_effect st st' (Some userID)
| effect_cleaned (userID : JsValue) :
    activeCalls st' = delete userID (activeCalls st) →
    members st' = delete userID (members st) →
    timers st' = delete userID (timers st) →
    nextTimeout st' = nextTimeout st →
    scheduled st' =
      (match timers st !! userID with
       | Some h => delete h (scheduled st)
       | None => scheduled st
       end) →
    turn_effect st st' None.

(** * Properties *)

Ltac unfold_monad :=
  unfold mbind, mret, M_bind, M_ret, gets, modify, emit, console_log, liftC,
    clearTimeout, setTimeout, try_catch, exec in *.

(** ** Strings *)

Lemma append_cons (a : ascii) (s t : string) :
  String a s +:+ t = String a (s +:+ t).
Proof. reflexivity. Qed.

Lemma append_length (s t : string) :
  String.length (s +:+ t) = (String.length s + String.length t)%nat.
Proof.
  induction s as [|a s IH]; [reflexivity|].
  rewrite append_cons. cbn [String.length]. now rewrite IH.
Qed.

Lemma substring_prefix_split (n : nat) : ∀ s : string,
  (n ≤ String.length s)%nat →
  ∃ suffix, s = substring 0 n s +:+ suffix ∧
            String.length suffix = (String.length s - n)%nat ∧
            String.length (substring 0 n s) = n.
Proof.
  induction n as [|n IH]; intros s Hn.
  - exists s. destruct s; cbn; repeat split; lia.
  - destruct s as [|a s]; cbn [String.length] in Hn; [lia|].
    destruct (IH s) as (suffix & Hs & Hlen & Hpre); [lia|].
    exists suffix. cbn [substring String.length]. rewrite append_cons.
    repeat split; [congruence | lia | lia].
Qed.

Lemma slice_drop_last (s : string) (k : nat) :
  (0 < k ≤ String.length s)%nat →
  slice s 0 (- Z.of_nat k) = substring 0 (String.length s - k) s.
Proof.
  intros Hk. unfold slice, clamp_index.
  destruct (Z.ltb_spec (- Z.of_nat k) 0) as [Hneg|Hzero]; [|lia].
  cbn [Z.ltb Z.compare].
  rewrite Z.min_l by lia. cbn [Z.to_nat]. f_equal. lia.
Qed.

Lemma obfuscatePhone_long (s : string) :
  (5 ≤ String.length s)%nat →
  obfuscatePhone (JStr s) = substring 0 (String.length s - 5) s +:+ "xxxxx".
Proof.
  intros Hlen. unfold obfuscatePhone.
  destruct s as [|a s]; [cbn in Hlen; lia|].
  cbn [truthy is_string String.eqb negb orb].
  destruct (Z.leb_spec 5 (Z.of_nat (String.length (String a s)))) as [_|Hlt]; [|lia].
  change (-5) with (- Z.of_nat 5).
  rewrite (slice_drop_last (String a s) 5); [reflexivity | lia].
Qed.

(** C6 (as amended): redaction gives the literal "unknown" for a value that is
    not a string and also for the empty string; a non-empty string shorter
    than 5 gives exactly "xxxxx"; a string of length 5 or more gives all its
    characters but the last 5 followed by "xxxxx", so the length is kept and
    the last 5 characters of the result are "xxxxx". *)
Theorem obfuscatePhone_redacts (v : JsValue) (s : string) :
  (is_string v = false → obfuscatePhone v = "unknown") ∧
  obfuscatePhone (JStr "") = "unknown" ∧
  (s ≠ "" → (String.length s < 5)%nat → obfuscatePhone (JStr s) = "xxxxx") ∧
  ((5 ≤ String.length s)%nat →
   ∃ kept last5,
     s = kept +:+ last5 ∧ String.length last5 = 5%nat ∧
     obfuscatePhone (JStr s) = kept +:+ "xxxxx" ∧
     String.length (obfuscatePhone (JStr s)) = String.length s).
Proof.
  repeat split.
  - intros Hv. unfold obfuscatePhone. rewrite Hv.
    now rewrite orb_true_r.
  - intros Hne Hlen. unfold obfuscatePhone.
    destruct s as [|a s]; [congruence|].
    cbn [truthy is_string String.eqb negb orb].
    destruct (Z.leb_spec 5 (Z.of_nat (String.length (String a s)))); [lia|reflexivity].
  - intros Hlen.
    destruct (substring_prefix_split (String.length s - 5) s) as (last5 & Hs & Hl & Hp); [lia|].
    exists (substring 0 (String.length s - 5) s), last5.
    rewrite (obfuscatePhone_long s Hlen).
    repeat split; [exact Hs | lia |].
    rewrite append_length, Hp. cbn [String.length]. lia.
Qed.

Lemma obfuscatePhone_redacts_witness :
  obfuscatePhone (JNum 15551230000) = "unknown" ∧
  obfuscatePhone (JStr "+155") = "xxxxx" ∧
  String.length (obfuscatePhone (JStr "+15551230000")) = 12%nat.
Proof.
  destruct (obfuscatePhone_redacts (JNum 15551230000) "+155") as (Hv & _ & Hshort & _).
  destruct (obfuscatePhone_redacts JNull "+15551230000") as (_ & _ & _ & Hlong).
  split; [|split].
  - apply Hv. reflexivity.
  - apply Hshort; [discriminate | cbn; lia].
  - destruct Hlong as (kept & last5 & _ & _ & _ & Hlen); [cbn; lia | exact Hlen].
Defined.

(** C6, the claim as written fails at the empty string: its length is below
    5 and the result is "unknown", not "xxxxx". *)
Lemma obfuscatePhone_empty_not_masked :
  (String.length "" < 5)%nat ∧ obfuscatePhone (JStr "") ≠ "xxxxx".
Proof. split; [cbn; lia | discriminate]. Qed.

(** ** The duration parser *)

Lemma is_unit_iff (u : ascii) :
  is_unit u = true ↔ u = "s"%char ∨ u = "m"%char.
Proof.
  unfold is_unit. rewrite orb_true_iff, !Ascii.eqb_eq. reflexivity.
Qed.

Lemma is_unit_not_digit (u : ascii) : is_unit u = true → is_digit u = false.
Proof. intros [-> | ->]%is_unit_iff; reflexivity. Qed.

Lemma span_digits_sound : ∀ s front rest,
  span_digits s = (front, rest) →
  s = front +:+ rest ∧ all_digits front = true.
Proof.
  induction s as [|c s IH]; intros front rest Hspan; cbn in Hspan.
  - injection Hspan as <- <-. split; reflexivity.
  - destruct (is_digit c) eqn:Hc.
    + destruct (span_digits s) as [ds r] eqn:Hs.
      injection Hspan as <- <-.
      destruct (IH ds r eq_refl) as [-> Hds].
      split; [reflexivity|]. cbn. now rewrite Hc.
    + injection Hspan as <- <-. split; reflexivity.
Qed.

Lemma span_digits_stops : ∀ digits u rest,
  all_digits digits = true → is_digit u = false →
  span_digits (digits +:+ String u rest) = (digits, String u rest).
Proof.
  induction digits as [|c ds IH]; intros u rest Hds Hu.
  - change ("" +:+ String u rest) with (String u rest).
    cbn [span_digits]. now rewrite Hu.
  - cbn [all_digits] in Hds. apply andb_true_iff in Hds as [Hc Hds].
    rewrite append_cons. cbn [span_digits]. rewrite Hc.
    now rewrite (IH u rest Hds Hu).
Qed.

Lemma match_duration_iff (s digits : string) (unit : ascii) :
  match_duration s = Some (digits, unit) ↔ duration_token s digits unit.
Proof.
  unfold match_duration, duration_token. split.
  - destruct (span_digits s) as [front rest] eqn:Hspan.
    apply span_digits_sound in Hspan as [-> Hfront].
    destruct front as [|d ds]; [discriminate|].
    destruct rest as [|u [|? ?]]; try discriminate.
    destruct (is_unit u) eqn:Hu; [|discriminate].
    intros [= <- <-]. repeat split; [discriminate | exact Hfront |].
    now apply is_unit_iff.
  - intros (-> & Hne & Hds & Hu).
    apply is_unit_iff in Hu.
    rewrite (span_digits_stops digits unit "" Hds (is_unit_not_digit unit Hu)).
    destruct digits as [|d ds]; [congruence|]. now rewrite Hu.
Qed.

Lemma match_duration_none (s : string) :
  match_duration s = None ↔ ∀ digits unit, ¬ duration_token s digits unit.
Proof.
  split.
  - intros Hnone digits unit Htok%match_duration_iff. congruence.
  - intros Hno. destruct (match_duration s) as [[digits unit]|] eqn:Hm; [|reflexivity].
    apply match_duration_iff in Hm. now destruct (Hno digits unit).
Qed.

Lemma duration_token_truthy (s digits : string) (unit : ascii) :
  duration_token s digits unit → truthy (JStr s) = true.
Proof.
  intros (-> & Hne & _). destruct digits; [congruence | reflexivity].
Qed.

(** *** Doubles *)

Lemma to_double_exact (z : Z) : z < 2 ^ 53 → to_double z = Finite z.
Proof.
  intros Hz. unfold to_double.
  destruct (Z.ltb_spec z (2 ^ 53)); [reflexivity | lia].
Qed.

(** The pieces of a rounding above 2^53: the exponent is positive, the
    significand has 53 bits. *)
Lemma rounding_pieces (z : Z) :
  2 ^ 53 ≤ z →
  let e := Z.log2 z - 52 in
  1 ≤ e ∧ 0 < 2 ^ e ∧ 2 ^ e ≤ z ∧
  1 ≤ z / 2 ^ e ∧ z / 2 ^ e < 2 ^ 53 ∧ z / 2 ^ e * 2 ^ e ≤ z.
Proof.
  intros Hz. cbv zeta.
  assert (Hpos : 0 < z) by (pose proof (Z.pow_pos_nonneg 2 53); lia).
  assert (Hlog : 53 ≤ Z.log2 z) by (apply Z.log2_le_pow2; lia).
  destruct (Z.log2_spec z Hpos) as [Hlow Hhigh].
  set (e := Z.log2 z - 52) in *.
  assert (He : 0 < 2 ^ e) by (apply Z.pow_pos_nonneg; lia).
  assert (Hsplit : 2 ^ Z.log2 z = 2 ^ 52 * 2 ^ e).
  { rewrite <- Z.pow_add_r by lia. f_equal. lia. }
  assert (Hsplit' : 2 ^ Z.succ (Z.log2 z) = 2 ^ 53 * 2 ^ e).
  { rewrite <- Z.pow_add_r by lia. f_equal. lia. }
  assert (H52 : 2 ^ 52 = 4503599627370496) by reflexivity.
  assert (Hle : 2 ^ e ≤ z) by nia.
  repeat split; try lia.
  - apply Z.div_le_lower_bound; lia.
  - apply Z.div_lt_upper_bound; [lia|]. rewrite Hsplit' in Hhigh. lia.
  - pose proof (Z.mul_div_le z (2 ^ e) He). lia.
Qed.

Lemma to_double_sign (z v : Z) :
  0 ≤ z → to_double z = Finite v → 0 ≤ v ∧ (v = 0 ↔ z = 0) ∧ v ≤ 2 * z.
Proof.
  intros Hz. unfold to_double.
  destruct (Z.ltb_spec z (2 ^ 53)) as [Hsmall|Hbig].
  - intros [= <-]. lia.
  - destruct (rounding_pieces z Hbig) as (He & Hpow & Hle & Hq1 & Hq2 & Hmul).
    cbv zeta. set (e := Z.log2 z - 52) in *.
    set (q := z / 2 ^ e) in *.
    set (q' := if z mod 2 ^ e <? 2 ^ (e - 1) then q
               else if 2 ^ (e - 1) <? z mod 2 ^ e then q + 1
               else if Z.even q then q else q + 1).
    assert (Hq' : q ≤ q' ≤ q + 1).
    { unfold q'. destruct (z mod 2 ^ e <? 2 ^ (e - 1)); [lia|].
      destruct (2 ^ (e - 1) <? z mod 2 ^ e); [lia|].
      destruct (Z.even q); lia. }
    destruct (2 ^ 1024 <=? q' * 2 ^ e); [discriminate|].
    intros [= <-].
    assert (2 ^ 53 = 9007199254740992) by reflexivity. nia.
Qed.

Lemma to_double_infinite (z : Z) : to_double z = Infinity → 2 ^ 1023 ≤ z.
Proof.
  unfold to_double.
  destruct (Z.ltb_spec z (2 ^ 53)) as [Hsmall|Hbig]; [discriminate|].
  destruct (rounding_pieces z Hbig) as (He & Hpow & Hle & Hq1 & Hq2 & Hmul).
  cbv zeta. set (e := Z.log2 z - 52) in *.
  set (q := z / 2 ^ e) in *.
  set (q' := if z mod 2 ^ e <? 2 ^ (e - 1) then q
             else if 2 ^ (e - 1) <? z mod 2 ^ e then q + 1
             else if Z.even q then q else q + 1).
  assert (Hq' : q' ≤ 2 ^ 53).
  { unfold q'. destruct (z mod 2 ^ e <? 2 ^ (e - 1)); [lia|].
    destruct (2 ^ (e - 1) <? z mod 2 ^ e); [lia|].
    destruct (Z.even q); lia. }
  destruct (Z.leb_spec (2 ^ 1024) (q' * 2 ^ e)) as [Hover|]; [|discriminate].
  intros _.
  assert (Hbound : 2 ^ 1024 ≤ 2 ^ (53 + e)).
  { rewrite Z.pow_add_r by lia. nia. }
  apply Z.pow_le_mono_r_iff in Hbound; [|lia|lia].
  assert (Hlog : 1023 ≤ Z.log2 z) by (unfold e in Hbound; lia).
  apply Z.log2_le_pow2; [|exact Hlog].
  pose proof (Z.pow_pos_nonneg 2 53). lia.
Qed.

(** *** The digits *)

Lemma mathInt_from_decimal : ∀ s acc,
  mathInt_from acc s = acc * 10 ^ Z.of_nat (String.length s) + decimal s.
Proof.
  induction s as [|c s IH]; intros acc; cbn [mathInt_from decimal String.length].
  - cbn. lia.
  - rewrite IH, Nat2Z.inj_succ, Z.pow_succ_r by lia. ring.
Qed.

(** [parseInt] is the number value of the decimal reading of the digits. *)
Lemma parseInt_decimal (s : string) : parseInt s = to_double (decimal s).
Proof.
  unfold parseInt. rewrite mathInt_from_decimal. f_equal.
Qed.

Lemma digit_value_range (c : ascii) :
  is_digit c = true → 0 ≤ digit_value c ≤ 9.
Proof.
  unfold is_digit, digit_value.
  intros [H1%N.leb_le H2%N.leb_le]%andb_true_iff. lia.
Qed.

Lemma digit_value_zero (c : ascii) :
  is_digit c = true → (digit_value c = 0 ↔ Ascii.eqb c "0" = true).
Proof.
  intros Hc. rewrite Ascii.eqb_eq. unfold digit_value. split.
  - intros Hz. rewrite <- (ascii_N_embedding c).
    replace (N_of_ascii c) with 48%N by lia. reflexivity.
  - intros ->. reflexivity.
Qed.

Lemma decimal_nonneg : ∀ digits,
  all_digits digits = true → 0 ≤ decimal digits.
Proof.
  induction digits as [|c s IH]; intros Hs; cbn [decimal]; [lia|].
  cbn [all_digits] in Hs. apply andb_true_iff in Hs as [Hc Hs].
  pose proof (digit_value_range c Hc).
  pose proof (Z.pow_pos_nonneg 10 (Z.of_nat (String.length s))).
  specialize (IH Hs). nia.
Qed.

Lemma decimal_zero : ∀ digits,
  all_digits digits = true → (decimal digits = 0 ↔ all_zeros digits = true).
Proof.
  induction digits as [|c s IH]; intros Hs; cbn [decimal all_zeros]; [intuition|].
  cbn [all_digits] in Hs. apply andb_true_iff in Hs as [Hc Hs].
  pose proof (digit_value_range c Hc) as Hr.
  pose proof (Z.pow_pos_nonneg 10 (Z.of_nat (String.length s))) as Hp.
  pose proof (decimal_nonneg s Hs) as Hd.
  rewrite andb_true_iff, <- (digit_value_zero c Hc), <- (IH Hs). split.
  - intros Hsum. assert (digit_value c = 0) by nia. split; [assumption | nia].
  - intros [-> ->]. lia.
Qed.

Lemma parseDuration_string_default (s : string) :
  match_duration s = None → parseDuration (JStr s) = Normal (Finite DEFAULT_TIME_LIMIT).
Proof.
  intros Hm. unfold parseDuration. rewrite Hm.
  now destruct (negb (truthy (JStr s))).
Qed.

(** The parser on a token of the grammar. *)
Lemma parseDuration_token (s digits : string) (unit : ascii) :
  duration_token s digits unit →
  parseDuration (JStr s) =
    Normal (if Ascii.eqb unit "s"
            then times (to_double (decimal digits)) 1000
            else times (times (to_double (decimal digits)) 60) 1000).
Proof.
  intros Htok. pose proof Htok as (_ & _ & _ & Hu).
  unfold parseDuration. rewrite (duration_token_truthy _ _ _ Htok).
  apply match_duration_iff in Htok. rewrite Htok. cbn.
  rewrite parseInt_decimal. destruct Hu as [-> | ->]; reflexivity.
Qed.

(** C5 (as amended): the parser accepts exactly the strings made of one or
    more decimal digits immediately followed by one unit character, [s] or
    [m]; it maps digits+[s] to digits*1000 and digits+[m] to digits*60000
    computed in double precision, which is exactly that product whenever the
    product is below 2^53 and the nearest double (or Infinity) otherwise;
    every other string gives 120000; "30s" gives 30000, "5m" gives 300000,
    "1234s" gives 1234000, "0090m" gives 5400000, and "", "10", "5h", "m5"
    give 120000. *)
Theorem parseDuration_grammar (s digits : string) (unit : ascii) :
  (match_duration s = Some (digits, unit) ↔ duration_token s digits unit) ∧
  (duration_token s digits "s" → decimal digits * 1000 < 2 ^ 53 →
   parseDuration (JStr s) = Normal (Finite (decimal digits * 1000))) ∧
  (duration_token s digits "m" → decimal digits * 60000 < 2 ^ 53 →
   parseDuration (JStr s) = Normal (Finite (decimal digits * 60000))) ∧
  (duration_token s digits "s" →
   parseDuration (JStr s) = Normal (times (to_double (decimal digits)) 1000)) ∧
  (duration_token s digits "m" →
   parseDuration (JStr s) =
     Normal (times (times (to_double (decimal digits)) 60) 1000)) ∧
  ((∀ ds u, ¬ duration_token s ds u) → parseDuration (JStr s) = Normal (Finite 120000)) ∧
  parseDuration (JStr "30s") = Normal (Finite 30000) ∧
  parseDuration (JStr "5m") = Normal (Finite 300000) ∧
  parseDuration (JStr "1234s") = Normal (Finite 1234000) ∧
  parseDuration (JStr "0090m") = Normal (Finite 5400000) ∧
  parseDuration (JStr "") = Normal (Finite 120000) ∧
  parseDuration (JStr "10") = Normal (Finite 120000) ∧
  parseDuration (JStr "5h") = Normal (Finite 120000) ∧
  parseDuration (JStr "m5") = Normal (Finite 120000).
Proof.
  split; [apply match_duration_iff|].
  split; [|split; [|split; [|split; [|split]]]].
  - intros Htok Hsmall. rewrite (parseDuration_token _ _ _ Htok). cbn.
    pose proof Htok as (_ & _ & Hdig & _).
    pose proof (decimal_nonneg digits Hdig).
    rewrite (to_double_exact (decimal digits)) by lia. cbn [times].
    now rewrite to_double_exact.
  - intros Htok Hsmall. rewrite (parseDuration_token _ _ _ Htok). cbn.
    pose proof Htok as (_ & _ & Hdig & _).
    pose proof (decimal_nonneg digits Hdig).
    rewrite (to_double_exact (decimal digits)) by lia. cbn [times].
    rewrite (to_double_exact (decimal digits * 60)) by lia. cbn [times].
    rewrite to_double_exact by lia. do 2 f_equal. lia.
  - intros Htok. now rewrite (parseDuration_token _ _ _ Htok).
  - intros Htok. now rewrite (parseDuration_token _ _ _ Htok).
  - intros Hno%match_duration_none. now apply parseDuration_string_default.
  - repeat split; vm_compute; reflexivity.
Qed.

Lemma parseDuration_grammar_witness :
  parseDuration (JStr "45s") = Normal (Finite (decimal "45" * 1000)) ∧
  parseDuration (JStr "007m") = Normal (Finite (decimal "007" * 60000)) ∧
  parseDuration (JStr "1.5s") = Normal (Finite 120000).
Proof.
  destruct (parseDuration_grammar "45s" "45" "s") as (_ & Hs & _).
  destruct (parseDuration_grammar "007m" "007" "m") as (_ & _ & Hm & _).
  destruct (parseDuration_grammar "1.5s" "" "s") as (_ & _ & _ & _ & _ & Hno & _).
  split; [|split].
  - apply Hs; [|vm_compute; reflexivity].
    repeat split; [discriminate | left; reflexivity].
  - apply Hm; [|vm_compute; reflexivity].
    repeat split; [discriminate | right; reflexivity].
  - apply Hno. intros ds u Htok.
    apply (match_duration_iff "1.5s" ds u) in Htok. discriminate Htok.
Defined.

(** C5, the claim as written fails for a long digit run: the token
    "9007199254740993s" is in the grammar, its digits times 1000 is
    9007199254740993000, and the parser returns 9007199254740992000, the
    double nearest to the digits times 1000. *)
Lemma parseDuration_rounds_long_tokens :
  duration_token "9007199254740993s" "9007199254740993" "s" ∧
  decimal "9007199254740993" * 1000 = 9007199254740993000 ∧
  parseDuration (JStr "9007199254740993s") = Normal (Finite 9007199254740992000) ∧
  parseDuration (JStr "9007199254740993s")
    ≠ Normal (Finite (decimal "9007199254740993" * 1000)).
Proof.
  split; [repeat split; [discriminate | left; reflexivity]|].
  split; [vm_compute; reflexivity|].
  split; [vm_compute; reflexivity|].
  vm_compute. discriminate.
Qed.

(** Further products beyond 2^53: a half-way case that rounds to the even
    neighbour, a minutes token rounded after the second multiplication, and a
    digit run too long for a double. *)
Lemma parseDuration_beyond_2_53 :
  parseDuration (JStr "72057594037929s") = Normal (Finite 72057594037928992) ∧
  parseDuration (JStr "150119987579017m") = Normal (Finite 9007199254741019648) ∧
  parseDuration (JStr (run_of "9" 309 +:+ "s")) = Normal Infinity.
Proof. repeat split; vm_compute; reflexivity. Qed.

(** C4 (as amended): the parser returns a millisecond count, without raising,
    for every input that is absent or falsy and for every string; the count
    is the default 120000 whenever the input is absent or falsy or is a
    string outside the grammar.  A truthy value that is not a string has no
    [match] method and the call raises a TypeError. *)
Theorem parseDuration_total_on_strings (v : JsValue) :
  (truthy v = false ∨ is_string v = true → ∃ ms, parseDuration v = Normal ms) ∧
  (truthy v = false → parseDuration v = Normal (Finite 120000)) ∧
  (∀ s, v = JStr s → (∀ ds u, ¬ duration_token s ds u) →
        parseDuration v = Normal (Finite 120000)) ∧
  (truthy v = true → is_string v = false → parseDuration v = Throw TypeError).
Proof.
  assert (Hfalsy : truthy v = false → parseDuration v = Normal (Finite 120000)).
  { intros Hf. unfold parseDuration. now rewrite Hf. }
  repeat split.
  - intros [Hf | Hs]; [eauto|].
    destruct v as [| | | |s|]; try discriminate Hs.
    unfold parseDuration.
    destruct (negb (truthy (JStr s))); [eauto|].
    destruct (match_duration s) as [[digits unit]|]; [|eauto].
    cbn. destruct (Ascii.eqb unit "s"); [eauto|].
    destruct (Ascii.eqb unit "m"); eauto.
  - exact Hfalsy.
  - intros s -> Hno%match_duration_none.
    now apply parseDuration_string_default.
  - intros Ht Hs. unfold parseDuration. rewrite Ht.
    destruct v; try reflexivity; discriminate Hs.
Qed.

Lemma parseDuration_total_on_strings_witness :
  (∃ ms, parseDuration (JStr "90 s") = Normal ms) ∧
  parseDuration JUndefined = Normal (Finite 120000) ∧
  parseDuration (JStr "90 s") = Normal (Finite 120000) ∧
  parseDuration (JObj 4) = Throw TypeError.
Proof.
  destruct (parseDuration_total_on_strings (JStr "90 s")) as (Htotal & _ & Hdefault & _).
  destruct (parseDuration_total_on_strings JUndefined) as (_ & Habsent & _).
  destruct (parseDuration_total_on_strings (JObj 4)) as (_ & _ & _ & Hthrow).
  split; [|split; [|split]].
  - apply Htotal. right. reflexivity.
  - apply Habsent. reflexivity.
  - apply (Hdefault "90 s" eq_refl). intros ds u Htok.
    apply (match_duration_iff "90 s" ds u) in Htok. discriminate Htok.
  - apply Hthrow; reflexivity.
Defined.

(** C4, the claim as written fails at a non-string value: for the number 30
    the parser raises instead of returning a millisecond count. *)
Lemma parseDuration_number_raises :
  is_string (JNum 30) = false ∧
  parseDuration (JNum 30) = Throw TypeError ∧
  ¬ ∃ ms, parseDuration (JNum 30) = Normal ms.
Proof.
  repeat split. intros [ms Hms]. discriminate Hms.
Qed.

(** ** The registration endpoint *)

Arguments obfuscatePhone : simpl never.
Arguments parseDuration : simpl never.
Arguments formatTime : simpl never.

Lemma post_api_member_rejects (req : MemberBody) (st : State) :
  truthy (req_userID req) = false →
  post_api_member req st =
    (Normal {| status := 400; body := ErrorBody "userID is required" |}, st, []).
Proof.
  intros Hf. unfold post_api_member. rewrite Hf. reflexivity.
Qed.

Lemma post_api_member_throws (req : MemberBody) (st : State) (e : JsError) :
  truthy (req_userID req) = true →
  parseDuration (req_duration req) = Throw e →
  post_api_member req st = (Throw e, st, []).
Proof.
  intros Ht Hp. unfold post_api_member. rewrite Ht.
  unfold_monad. cbn. now rewrite Hp.
Qed.

Lemma post_api_member_accepts (req : MemberBody) (st : State) (ms : JsNumber) :
  truthy (req_userID req) = true →
  parseDuration (req_duration req) = Normal ms →
  ∃ st' tr,
    post_api_member req st = (Normal success, st', tr) ∧
    activeCalls st' = activeCalls st ∧
    members st' = <[req_userID req := registered_member req ms]> (members st) ∧
    awaiting st' = awaiting st ∧
    match activeCalls st !! req_userID req with
    | None =>
        timers st' = timers st ∧ scheduled st' = scheduled st ∧
        nextTimeout st' = nextTimeout st
    | Some callData =>
        timers st' = <[req_userID req := nextTimeout st]> (timers st) ∧
        scheduled st' =
          <[nextTimeout st := {| task_userID := req_userID req;
                                 task_callSid := callSid callData;
                                 task_delay := ms |}]>
            (match timers st !! req_userID req with
             | Some h => delete h (scheduled st)
             | None => scheduled st
             end) ∧
        nextTimeout st' = N.succ (nextTimeout st)
    end.
Proof.
  intros Ht Hp. unfold post_api_member. rewrite Ht.
  unfold_monad. cbn. rewrite Hp. cbn.
  destruct (activeCalls st !! req_userID req) as [callData|] eqn:Hactive.
  - destruct (timers st !! req_userID req) as [h|] eqn:Hprev;
      repeat (unfold_monad; cbn); rewrite ?Hprev; cbn;
      eexists _, _; (split; [reflexivity|]); cbn; repeat split.
    + now rewrite insert_delete_eq.
  - repeat (unfold_monad; cbn).
    eexists _, _; (split; [reflexivity|]); cbn; repeat split.
Qed.

Lemma post_api_member_success_inv (req : MemberBody) (st st' : State)
    (tr : list Effect) :
  post_api_member req st = (Normal success, st', tr) →
  truthy (req_userID req) = true ∧
  ∃ ms, parseDuration (req_duration req) = Normal ms ∧
        members st' = <[req_userID req := registered_member req ms]> (members st).
Proof.
  intros Hrun.
  destruct (truthy (req_userID req)) eqn:Ht.
  - split; [reflexivity|].
    destruct (parseDuration (req_duration req)) as [ms|e] eqn:Hp.
    + exists ms. split; [reflexivity|].
      destruct (post_api_member_accepts req st ms Ht Hp) as (st1 & tr1 & Hrun1 & _ & Hm & _).
      rewrite Hrun1 in Hrun. now injection Hrun as <- _.
    + rewrite (post_api_member_throws req st e Ht Hp) in Hrun. discriminate Hrun.
  - rewrite (post_api_member_rejects req st Ht) in Hrun. discriminate Hrun.
Qed.

(** C7: a registration request whose [userID] is missing (or falsy) is
    answered with the client-error status 400 and leaves the whole state as it
    was: [members], [activeCalls], [timers] and the scheduled timers are
    unchanged for every identity. *)
Theorem post_api_member_missing_userID (req : MemberBody) (st : State) :
  truthy (req_userID req) = false →
  ∃ resp tr st',
    post_api_member req st = (Normal resp, st', tr) ∧
    status resp = 400 ∧ st' = st ∧
    ∀ identity,
      members st' !! identity = members st !! identity ∧
      activeCalls st' !! identity = activeCalls st !! identity ∧
      timers st' !! identity = timers st !! identity ∧
      live_timers st' identity = live_timers st identity.
Proof.
  intros Hf. rewrite (post_api_member_rejects req st Hf).
  eexists _, _, _. repeat split.
Qed.

Lemma post_api_member_missing_userID_witness :
  ∃ resp tr st',
    post_api_member
      {| req_userID := JUndefined; req_duration := JStr "30s";
         req_endMessage := JStr "Bye" |} initial = (Normal resp, st', tr) ∧
    status resp = 400 ∧ st' = initial ∧
    ∀ identity,
      members st' !! identity = members initial !! identity ∧
      activeCalls st' !! identity = activeCalls initial !! identity ∧
      timers st' !! identity = timers initial !! identity ∧
      live_timers st' identity = live_timers initial identity.
Proof.
  apply (post_api_member_missing_userID
           {| req_userID := JUndefined; req_duration := JStr "30s";
              req_endMessage := JStr "Bye" |} initial).
  reflexivity.
Defined.

(** C10: handling a registration request never changes [activeCalls]: the
    entry of every identity (call identifier, start time, metadata) is the
    same before and after, whether the request is rejected, raises, or is
    accepted with or without an active call. *)
Theorem post_api_member_keeps_activeCalls (req : MemberBody) (st : State)
    (identity : JsValue) :
  activeCalls (exec (post_api_member req) st) !! identity =
  activeCalls st !! identity.
Proof.
  f_equal. unfold exec.
  destruct (truthy (req_userID req)) eqn:Ht.
  - destruct (parseDuration (req_duration req)) as [ms|e] eqn:Hp.
    + destruct (post_api_member_accepts req st ms Ht Hp) as (st1 & tr1 & -> & Hac & _).
      exact Hac.
    + now rewrite (post_api_member_throws req st e Ht Hp).
  - now rewrite (post_api_member_rejects req st Ht).
Qed.

(** C9: an accepted registration stores the supplied [endMessage] when it is
    truthy and the fixed default sentence when it is the empty string or any
    other falsy value; the stored end message is never the empty string. *)
Theorem post_api_member_endMessage (req : MemberBody) (st st' : State)
    (tr : list Effect) :
  post_api_member req st = (Normal success, st', tr) →
  ∃ m, members st' !! req_userID req = Some m ∧
       (truthy (req_endMessage req) = false →
        endMessage m =
          JStr "You have reached your time limit. The call will now end. Goodbye.") ∧
       (truthy (req_endMessage req) = true → endMessage m = req_endMessage req) ∧
       endMessage m ≠ JStr "".
Proof.
  intros (_ & ms & _ & Hm)%post_api_member_success_inv.
  exists (registered_member req ms). rewrite Hm, lookup_insert_eq.
  split; [reflexivity|]. cbn [registered_member endMessage]. unfold js_or.
  destruct (truthy (req_endMessage req)) eqn:Ht; repeat split; try discriminate.
  intros Heq. rewrite Heq in Ht. discriminate Ht.
Qed.

Lemma post_api_member_endMessage_witness :
  ∃ m, members
         (exec (post_api_member
                  {| req_userID := JStr "+15551230000"; req_duration := JStr "1s";
                     req_endMessage := JStr "" |}) initial)
         !! JStr "+15551230000" = Some m ∧
       endMessage m =
         JStr "You have reached your time limit. The call will now end. Goodbye.".
Proof.
  destruct (post_api_member_endMessage
              {| req_userID := JStr "+15551230000"; req_duration := JStr "1s";
                 req_endMessage := JStr "" |}
              initial
              (exec (post_api_member
                       {| req_userID := JStr "+15551230000"; req_duration := JStr "1s";
                          req_endMessage := JStr "" |}) initial)
              [ConsoleLog (MemberRegistered "+155512xxxxx" (Seconds 1000));
               ConsoleLog (NoActiveCallFound "+155512xxxxx")])
    as (m & Hm & Hdefault & _).
  - vm_compute. reflexivity.
  - exists m. split; [exact Hm | apply Hdefault; reflexivity].
Defined.

(** ** The stored time limit *)

Lemma parseDuration_cases (v : JsValue) :
  parseDuration v = Normal (Finite DEFAULT_TIME_LIMIT) ∨
  parseDuration v = Throw TypeError ∨
  ∃ s digits unit, v = JStr s ∧ duration_token s digits unit.
Proof.
  destruct (truthy v) eqn:Ht.
  - destruct v as [| | | |s|]; try (right; left; unfold parseDuration; now rewrite Ht).
    destruct (match_duration s) as [[digits unit]|] eqn:Hm.
    + right; right. exists s, digits, unit. split; [reflexivity|].
      now apply match_duration_iff.
    + left. now apply parseDuration_string_default.
  - left. unfold parseDuration. now rewrite Ht.
Qed.

(** A number of the form [d * 1000] or [d * 60 * 1000], computed in doubles
    from a non-negative integer [d]. *)
Lemma scaled_range (d : Z) (seconds : bool) (r : JsNumber) :
  0 ≤ d →
  r = (if seconds then times (to_double d) 1000
       else times (times (to_double d) 60) 1000) →
  (r = Infinity ∨ ∃ z, r = Finite z ∧ 0 ≤ z) ∧
  (r = Finite 0 ↔ d = 0) ∧
  (r = Infinity → 2 ^ 1000 ≤ d).
Proof.
  intros Hd ->.
  assert (Hsplit : 2 ^ 1023 = 8388608 * 2 ^ 1000) by (vm_compute; reflexivity).
  assert (Hpos : 0 < 2 ^ 1000) by (apply Z.pow_pos_nonneg; lia).
  set (big := 2 ^ 1000) in *.
  destruct (to_double d) as [a|] eqn:Ha.
  - destruct (to_double_sign d a Hd Ha) as (Ha0 & Haz & Hale).
    destruct seconds; cbn [times].
    + destruct (to_double (a * 1000)) as [v|] eqn:Hv.
      * destruct (to_double_sign (a * 1000) v ltac:(lia) Hv) as (Hv0 & Hvz & _).
        split; [right; eauto|]. split; [|discriminate].
        split; [intros [= ->]; lia | intros ->; f_equal; lia].
      * apply to_double_infinite in Hv. rewrite Hsplit in Hv.
        split; [now left|]. split; [|intros _; lia].
        split; [discriminate | intros ->; lia].
    + destruct (to_double (a * 60)) as [b|] eqn:Hb; cbn [times].
      * destruct (to_double_sign (a * 60) b ltac:(lia) Hb) as (Hb0 & Hbz & Hble).
        destruct (to_double (b * 1000)) as [v|] eqn:Hv.
        -- destruct (to_double_sign (b * 1000) v ltac:(lia) Hv) as (Hv0 & Hvz & _).
           split; [right; eauto|]. split; [|discriminate].
           split; [intros [= ->]; lia | intros ->; f_equal; lia].
        -- apply to_double_infinite in Hv. rewrite Hsplit in Hv.
           split; [now left|]. split; [|intros _; lia].
           split; [discriminate | intros ->; lia].
      * apply to_double_infinite in Hb. rewrite Hsplit in Hb.
        split; [now left|]. split; [|intros _; lia].
        split; [discriminate | intros ->; lia].
  - apply to_double_infinite in Ha. rewrite Hsplit in Ha.
    assert (Hr : (if seconds then times Infinity 1000
                  else times (times Infinity 60) 1000) = Infinity)
      by (destruct seconds; reflexivity).
    rewrite Hr. split; [now left|]. split; [|intros _; lia].
    split; [discriminate | intros ->; lia].
Qed.

Lemma parseDuration_range (v : JsValue) (ms : JsNumber) :
  parseDuration v = Normal ms →
  (ms = Infinity ∨ ∃ z, ms = Finite z ∧ 0 ≤ z) ∧
  (ms = Finite 0 ↔ ∃ s zeros unit,
                     v = JStr s ∧ duration_token s zeros unit ∧ all_zeros zeros = true) ∧
  (ms = Infinity → ∃ s digits unit,
                     v = JStr s ∧ duration_token s digits unit ∧
                     2 ^ 1000 ≤ decimal digits).
Proof.
  intros Hp.
  destruct (parseDuration_cases v) as [Hd | [Hthrow | (s & digits & unit & -> & Htok)]].
  - rewrite Hd in Hp. injection Hp as <-.
    split; [right; exists DEFAULT_TIME_LIMIT; split; [reflexivity | vm_compute; discriminate]|].
    split; [|discriminate].
    split; [discriminate|].
    intros (s & zeros & unit & -> & Htok & Hz).
    rewrite (parseDuration_token _ _ _ Htok) in Hd.
    pose proof Htok as (_ & _ & Hdig & _).
    apply (decimal_zero zeros Hdig) in Hz. rewrite Hz in Hd.
    destruct (Ascii.eqb unit "s"); discriminate Hd.
  - rewrite Hthrow in Hp. discriminate Hp.
  - rewrite (parseDuration_token _ _ _ Htok) in Hp. injection Hp as Hms.
    pose proof Htok as (_ & _ & Hdig & _).
    destruct (scaled_range (decimal digits) (Ascii.eqb unit "s") ms
                (decimal_nonneg digits Hdig) (eq_sym Hms)) as (Hsign & Hzero & Hinf).
    split; [exact Hsign|]. split.
    + rewrite Hzero, (decimal_zero digits Hdig). split.
      * intros Hz. exists s, digits, unit. auto.
      * intros (s' & zeros & unit' & [= <-] & Htok' & Hz).
        apply match_duration_iff in Htok, Htok'.
        rewrite Htok in Htok'. now injection Htok' as <- <-.
    + intros Hi. exists s, digits, unit. auto.
Qed.

(** C3 (as amended): an accepted registration stores, for its identity, a
    time limit that is a non-negative number, an integer or (only for a
    digit run that denotes at least 2^1000) Infinity; it is zero exactly when
    the duration token is a run of zeros followed by [s] or [m] (as in "0s"),
    and strictly positive for every other accepted request. *)
Theorem post_api_member_timeLimit (req : MemberBody) (st st' : State)
    (tr : list Effect) :
  post_api_member req st = (Normal success, st', tr) →
  ∃ m, members st' !! req_userID req = Some m ∧
       (timeLimit m = Infinity ∨ ∃ z, timeLimit m = Finite z ∧ 0 ≤ z) ∧
       (timeLimit m = Finite 0 ↔
        ∃ s zeros unit, req_duration req = JStr s ∧
                        duration_token s zeros unit ∧ all_zeros zeros = true) ∧
       (timeLimit m = Infinity →
        ∃ s digits unit, req_duration req = JStr s ∧
                         duration_token s digits unit ∧
                         2 ^ 1000 ≤ decimal digits).
Proof.
  intros (_ & ms & Hp & Hm)%post_api_member_success_inv.
  exists (registered_member req ms). rewrite Hm, lookup_insert_eq.
  split; [reflexivity|]. cbn [registered_member timeLimit].
  now apply parseDuration_range.
Qed.

Lemma post_api_member_timeLimit_witness :
  ∃ m, members
         (exec (post_api_member
                  {| req_userID := JStr "+15551230000"; req_duration := JStr "90s";
                     req_endMessage := JUndefined |}) initial)
         !! JStr "+15551230000" = Some m ∧
       (timeLimit m = Infinity ∨ ∃ z, timeLimit m = Finite z ∧ 0 ≤ z).
Proof.
  destruct (post_api_member_timeLimit
              {| req_userID := JStr "+15551230000"; req_duration := JStr "90s";
                 req_endMessage := JUndefined |}
              initial
              (exec (post_api_member
                       {| req_userID := JStr "+15551230000"; req_duration := JStr "90s";
                          req_endMessage := JUndefined |}) initial)
              [ConsoleLog (MemberRegistered "+155512xxxxx" (Minutes 90000));
               ConsoleLog (NoActiveCallFound "+155512xxxxx")])
    as (m & Hm & Hge & _).
  - vm_compute. reflexivity.
  - exists m. split; [exact Hm | exact Hge].
Defined.

(** C3, the claim as written fails for the token "0s": the request is
    accepted and the stored time limit is 0, which is not strictly positive. *)
Lemma post_api_member_zero_timeLimit :
  let req := {| req_userID := JStr "+15551230000"; req_duration := JStr "0s";
                req_endMessage := JUndefined |} in
  (post_api_member req initial).1.1 = Normal success ∧
  timeLimit <$> members (exec (post_api_member req) initial) !! JStr "+15551230000"
    = Some (Finite 0) ∧
  ¬ (∀ m, members (exec (post_api_member req) initial) !! JStr "+15551230000" = Some m →
          ∃ z, timeLimit m = Finite z ∧ 0 < z).
Proof.
  cbv zeta. split; [vm_compute; reflexivity|].
  split; [vm_compute; reflexivity|].
  intros Hpos.
  destruct (Hpos {| timeLimit := Finite 0;
                    endMessage := JStr DEFAULT_END_MESSAGE |}) as (z & Hz & Hlt).
  - vm_compute. reflexivity.
  - cbn in Hz. injection Hz as <-. lia.
Qed.

(** A digit run too long for a double: with 310 nines the request is
    accepted and the stored time limit is Infinity. *)
Lemma post_api_member_infinite_timeLimit :
  let req := {| req_userID := JStr "+15551230000";
                req_duration := JStr (run_of "9" 310 +:+ "s");
                req_endMessage := JUndefined |} in
  (post_api_member req initial).1.1 = Normal success ∧
  timeLimit <$> members (exec (post_api_member req) initial) !! JStr "+15551230000"
    = Some Infinity.
Proof.
  cbv zeta. split; vm_compute; reflexivity.
Qed.

(** ** Ending a call *)

Lemma endCall_settle_resolved (userID sid : JsValue) (st : State) :
  endCall_settle userID sid Resolved st =
    (Normal tt, cleaned_up userID st, [ConsoleLog (SuccessfullyEnded sid)]).
Proof.
  unfold endCall_settle, cleaned_up. repeat (unfold_monad; cbn).
  destruct (timers st !! userID); reflexivity.
Qed.

Lemma endCall_settle_rejected (userID sid : JsValue) (st : State) :
  endCall_settle userID sid Rejected st =
    (Normal tt, st, [ConsoleLog (ErrorEndingCall ProviderError);
                     ConsoleLog (ErrorStack ProviderError)]).
Proof. reflexivity. Qed.

Lemma endCall_request_inactive (userID sid : JsValue) (st : State) :
  activeCalls st !! userID = None →
  endCall_request userID sid st =
    (Normal false, st, [ConsoleLog (NoLongerActive (obfuscatePhone userID))]).
Proof.
  intros Hnone. unfold endCall_request. repeat (unfold_monad; cbn).
  now rewrite Hnone.
Qed.

Lemma endCall_request_active (userID sid : JsValue) (st : State) :
  is_Some (activeCalls st !! userID) →
  ∃ tr, endCall_request userID sid st = (Normal true, st, tr) ∧
        ∃ twiml, CallsUpdate sid twiml ∈ tr.
Proof.
  intros [callData Hactive]. unfold endCall_request. repeat (unfold_monad; cbn).
  rewrite Hactive. repeat (unfold_monad; cbn).
  eexists. split; [reflexivity|]. eexists.
  do 3 apply list_elem_of_further. apply list_elem_of_here.
Qed.

Lemma cleaned_up_lookup (userID : JsValue) (st : State) :
  timers (cleaned_up userID st) !! userID = None ∧
  activeCalls (cleaned_up userID st) !! userID = None ∧
  members (cleaned_up userID st) !! userID = None ∧
  ∀ h, timers st !! userID = Some h → scheduled (cleaned_up userID st) !! h = None.
Proof.
  unfold cleaned_up.
  destruct (timers st !! userID) as [h|] eqn:Hh; cbn;
    rewrite !lookup_delete_eq; repeat split; try discriminate.
  intros h' [= <-]. apply lookup_delete_eq.
Qed.

(** C8: ending a call for an identity without an [activeCalls] entry returns
    normally, sends no request to the provider and leaves the state as it
    was (one log line is written); a second invocation right after the first
    behaves the same, with no error and no effect on the state. *)
Theorem endCall_inactive_noop (userID sid : JsValue) (o : Outcome) (st : State) :
  activeCalls st !! userID = None →
  ∃ tr,
    endCall userID sid o st = (Normal tt, st, tr) ∧
    (∀ target twiml, CallsUpdate target twiml ∉ tr) ∧
    endCall_request userID sid st = (Normal false, st, tr) ∧
    endCall userID sid o (exec (endCall userID sid o) st) = (Normal tt, st, tr).
Proof.
  intros Hnone.
  assert (Hrun : endCall userID sid o st =
                 (Normal tt, st, [ConsoleLog (NoLongerActive (obfuscatePhone userID))])).
  { unfold endCall. unfold mbind at 1, M_bind.
    now rewrite (endCall_request_inactive userID sid st Hnone). }
  eexists. split; [exact Hrun|]. split; [|split].
  - intros target twiml Hin. apply list_elem_of_singleton in Hin. discriminate Hin.
  - now apply endCall_request_inactive.
  - unfold exec. rewrite Hrun. exact Hrun.
Qed.

Lemma endCall_inactive_noop_witness :
  ∃ tr,
    endCall (JStr "+15551230000") (JStr "CA1") Resolved initial
      = (Normal tt, initial, tr) ∧
    (∀ target twiml, CallsUpdate target twiml ∉ tr) ∧
    endCall_request (JStr "+15551230000") (JStr "CA1") initial
      = (Normal false, initial, tr) ∧
    endCall (JStr "+15551230000") (JStr "CA1") Resolved
      (exec (endCall (JStr "+15551230000") (JStr "CA1") Resolved) initial)
      = (Normal tt, initial, tr).
Proof.
  apply (endCall_inactive_noop (JStr "+15551230000") (JStr "CA1") Resolved initial).
  reflexivity.
Defined.

(** C1 (as amended): when [endCall] runs for an identity that has an
    [activeCalls] entry and the request to the provider succeeds, the timer
    (its [timers] entry and the scheduled handle), the [activeCalls] entry and
    the [members] entry of that identity are all removed, also when other
    handlers ran while the request was in flight; when the request fails the
    error is logged (its message and its stack, after the lines written
    before the request) and the state is left exactly as it was: the cleanup
    is part of the success path only. *)
Theorem endCall_cleanup_on_success (userID sid : JsValue) (st : State) :
  is_Some (activeCalls st !! userID) →
  (∃ st' tr,
     endCall userID sid Resolved st = (Normal tt, st', tr) ∧
     timers st' !! userID = None ∧
     activeCalls st' !! userID = None ∧
     members st' !! userID = None ∧
     ∀ h, timers st !! userID = Some h → scheduled st' !! h = None) ∧
  (∃ before,
     endCall_request userID sid st = (Normal true, st, before) ∧
     endCall userID sid Rejected st =
       (Normal tt, st,
        (before ++ [ConsoleLog (ErrorEndingCall ProviderError);
                    ConsoleLog (ErrorStack ProviderError)])%list)) ∧
  (∀ later : State,
     let st' := exec (endCall_settle userID sid Resolved) later in
     timers st' !! userID = None ∧
     activeCalls st' !! userID = None ∧
     members st' !! userID = None) ∧
  (∀ later : State,
     endCall_settle userID sid Rejected later =
       (Normal tt, later,
        [ConsoleLog (ErrorEndingCall ProviderError);
         ConsoleLog (ErrorStack ProviderError)])).
Proof.
  intros Hactive.
  destruct (endCall_request_active userID sid st Hactive) as (tr & Hreq & _).
  split; [|split; [|split]].
  - exists (cleaned_up userID st). eexists. split.
    + unfold endCall. unfold mbind at 1, M_bind. rewrite Hreq.
      rewrite endCall_settle_resolved. reflexivity.
    + apply cleaned_up_lookup.
  - exists tr. split; [exact Hreq|].
    unfold endCall. unfold mbind at 1, M_bind. rewrite Hreq.
    rewrite endCall_settle_rejected. reflexivity.
  - intros later. cbv zeta. unfold exec. rewrite endCall_settle_resolved.
    cbn [fst snd]. destruct (cleaned_up_lookup userID later) as (? & ? & ? & _).
    auto.
  - intros later. apply endCall_settle_rejected.
Qed.

Lemma endCall_cleanup_on_success_witness :
  (∃ st' tr,
     endCall caller (JStr "CA1") Resolved in_call = (Normal tt, st', tr) ∧
     timers st' !! caller = None ∧
     activeCalls st' !! caller = None ∧
     members st' !! caller = None) ∧
  (∃ before,
     endCall caller (JStr "CA1") Rejected in_call =
       (Normal tt, in_call,
        (before ++ [ConsoleLog (ErrorEndingCall ProviderError);
                    ConsoleLog (ErrorStack ProviderError)])%list)).
Proof.
  destruct (endCall_cleanup_on_success caller (JStr "CA1") in_call)
    as ((st' & tr & Hrun & Ht & Ha & Hm & _) & (before & _ & Hfail) & _).
  - exists {| callSid := JStr "CA1"; startTime := 1000;
              metadata := {| md_callSid := JStr "CA1"; md_other := [] |} |}.
    vm_compute. reflexivity.
  - split; [exists st', tr; auto | exists before; exact Hfail].
Defined.

(** C1, the claim as written fails when the provider rejects the request:
    the caller has an active call, the timer fires, the request fails, and
    the [timers], [activeCalls] and [members] entries are all still there
    when [endCall] completes. *)
Lemma endCall_rejected_keeps_entries :
  is_Some (activeCalls in_call !! caller) ∧
  (let st' := exec (endCall caller (JStr "CA1") Rejected) in_call in
   st' = in_call ∧
   timers st' !! caller = Some 0%N ∧
   is_Some (activeCalls st' !! caller) ∧
   is_Some (members st' !! caller)) ∧
  (∃ st', run in_call [TimerFires 0%N; ProviderSettles 0 Rejected] = Some st' ∧
          timers st' !! caller = Some 0%N ∧
          is_Some (activeCalls st' !! caller) ∧
          is_Some (members st' !! caller)).
Proof.
  assert (Ha : is_Some (activeCalls in_call !! caller)).
  { eexists. vm_compute. reflexivity. }
  assert (Hm : is_Some (members in_call !! caller)).
  { eexists. vm_compute. reflexivity. }
  split; [exact Ha|]. split.
  - cbv zeta.
    assert (Hsame : exec (endCall caller (JStr "CA1") Rejected) in_call = in_call).
    { vm_compute. reflexivity. }
    rewrite Hsame. split; [reflexivity|]. split; [vm_compute; reflexivity|].
    split; assumption.
  - eexists. split; [vm_compute; reflexivity|].
    split; [vm_compute; reflexivity|].
    split; eexists; vm_compute; reflexivity.
Qed.

(** ** One timer per caller *)

(** The registration endpoint replaces: the handle found in [timers] is
    cleared before the new timer is scheduled. *)
Lemma post_api_member_replaces_timer (req : MemberBody) (st : State)
    (ms : JsNumber) (callData : CallData) (h : Timeout) :
  truthy (req_userID req) = true →
  parseDuration (req_duration req) = Normal ms →
  activeCalls st !! req_userID req = Some callData →
  timers st !! req_userID req = Some h →
  h ≠ nextTimeout st →
  let st' := exec (post_api_member req) st in
  scheduled st' !! h = None ∧
  timers st' !! req_userID req = Some (nextTimeout st) ∧
  is_Some (scheduled st' !! nextTimeout st).
Proof.
  intros Ht Hp Hactive Hprev Hfresh. cbv zeta. unfold exec.
  destruct (post_api_member_accepts req st ms Ht Hp) as (st1 & tr & -> & _ & _ & _ & Hcase).
  cbn [fst snd]. rewrite Hactive, Hprev in Hcase. destruct Hcase as (-> & -> & _).
  rewrite lookup_insert_ne by congruence.
  rewrite lookup_delete_eq, !lookup_insert_eq. eauto.
Qed.

(** The call-start handler does not: it schedules a new timer and overwrites
    the [timers] entry, and whatever was scheduled before stays scheduled. *)
Lemma handleCallStart_keeps_scheduled (event : CallEvent) (now : Z)
    (st : State) (member : Member) :
  members st !! ev_userID event = Some member →
  let st' := exec (handleCallStart event now) st in
  timers st' = <[ev_userID event := nextTimeout st]> (timers st) ∧
  scheduled st' =
    <[nextTimeout st := {| task_userID := ev_userID event;
                           task_callSid := md_callSid (ev_metadata event);
                           task_delay := timeLimit member |}]> (scheduled st).
Proof.
  intros Hm. cbv zeta. unfold handleCallStart.
  repeat (unfold_monad; cbn). rewrite Hm. split; reflexivity.
Qed.

(** C2, on the failing input: a registration followed by two call-start
    events for the same caller leaves two live timers aimed at that caller;
    [timers] knows only the second, so the first can no longer be cleared. *)
Theorem handleCallStart_stacks_timers :
  ∃ st,
    run initial overlapping_calls = Some st ∧
    reachable st ∧
    live_timers st caller = [1%N; 0%N] ∧
    timers st !! caller = Some 1%N ∧
    scheduled st !! 0%N =
      Some {| task_userID := caller; task_callSid := JStr "CA1";
              task_delay := 300000 |} ∧
    scheduled st !! 1%N =
      Some {| task_userID := caller; task_callSid := JStr "CA2";
              task_delay := 300000 |}.
Proof.
  exists (default initial (run initial overlapping_calls)).
  split; [vm_compute; reflexivity|].
  split; [exists overlapping_calls; vm_compute; reflexivity|].
  split; [vm_compute; reflexivity|].
  split; [vm_compute; reflexivity|].
  split; vm_compute; reflexivity.
Qed.

(** ** The call webhook *)

Arguments started : simpl never.
Arguments start_task : simpl never.

Lemma handleCallEnd_state (event : CallEvent) (st : State) :
  exec (handleCallEnd event) st = cleaned_up (ev_userID event) st.
Proof.
  unfold handleCallEnd, cleaned_up. repeat (unfold_monad; cbn).
  destruct (timers st !! ev_userID event) as [h|] eqn:Hh;
    repeat (unfold_monad; cbn);
    destruct (members st !! ev_userID event) as [m|] eqn:Hm;
    repeat (unfold_monad; cbn);
    unfold with_members, with_activeCalls, with_timers, with_scheduled; cbn;
    rewrite ?(delete_id _ _ Hh), ?(delete_id _ _ Hm); reflexivity.
Qed.

Lemma handleCallStart_untimed (event : CallEvent) (now : Z) (st : State) :
  members st !! ev_userID event = None →
  exec (handleCallStart event now) st =
    with_activeCalls <[ev_userID event := started event now]> st.
Proof.
  intros Hm. unfold handleCallStart. repeat (unfold_monad; cbn).
  rewrite Hm. reflexivity.
Qed.

Lemma handleCallStart_timed (event : CallEvent) (now : Z) (st : State)
    (member : Member) :
  members st !! ev_userID event = Some member →
  let st' := exec (handleCallStart event now) st in
  activeCalls st' = <[ev_userID event := started event now]> (activeCalls st) ∧
  members st' = members st ∧
  timers st' = <[ev_userID event := nextTimeout st]> (timers st) ∧
  scheduled st' = <[nextTimeout st := start_task event member]> (scheduled st) ∧
  nextTimeout st' = N.succ (nextTimeout st) ∧
  awaiting st' = awaiting st.
Proof.
  intros Hm. cbv zeta. unfold handleCallStart.
  repeat (unfold_monad; cbn). rewrite Hm. repeat split.
Qed.

Lemma post_api_call_webhook_state (event : CallEvent) (now : Z) (st : State) :
  exec (post_api_call_webhook event now) st =
    if bool_decide (ev_type event = JStr "runtime.call.start")
    then exec (handleCallStart event now) st
    else if bool_decide (ev_type event = JStr "runtime.call.end")
    then exec (handleCallEnd event) st
    else st.
Proof.
  unfold post_api_call_webhook. unfold exec, mbind, M_bind.
  destruct (bool_decide (ev_type event = JStr "runtime.call.start")).
  - destruct (handleCallStart event now st) as [[[] ?] ?] eqn:Hrun; [reflexivity|].
    exfalso. revert Hrun. unfold handleCallStart. repeat (unfold_monad; cbn).
    destruct (members st !! ev_userID event); discriminate.
  - destruct (bool_decide (ev_type event = JStr "runtime.call.end")); [|reflexivity].
    destruct (handleCallEnd event st) as [[[] ?] ?] eqn:Hrun; [reflexivity|].
    exfalso. revert Hrun. unfold handleCallEnd. repeat (unfold_monad; cbn).
    destruct (timers st !! ev_userID event); repeat (unfold_monad; cbn);
      destruct (members st !! ev_userID event); discriminate.
Qed.

Lemma cleaned_up_idempotent (userID : JsValue) (st : State) :
  cleaned_up userID (cleaned_up userID st) = cleaned_up userID st.
Proof.
  destruct (cleaned_up_lookup userID st) as (Ht & _).
  unfold cleaned_up at 1. rewrite Ht.
  unfold cleaned_up, with_members, with_activeCalls, with_timers; cbn.
  now rewrite !delete_delete_eq.
Qed.

Lemma cleaned_up_frame (userID other : JsValue) (st : State) :
  other ≠ userID →
  activeCalls (cleaned_up userID st) !! other = activeCalls st !! other ∧
  members (cleaned_up userID st) !! other = members st !! other ∧
  timers (cleaned_up userID st) !! other = timers st !! other.
Proof.
  intros Hne. unfold cleaned_up.
  destruct (timers st !! userID); cbn; rewrite !lookup_delete_ne by congruence;
    repeat split.
Qed.

Lemma cleaned_up_scheduled (userID : JsValue) (st : State) (h : Timeout) :
  timers st !! userID ≠ Some h →
  scheduled (cleaned_up userID st) !! h = scheduled st !! h.
Proof.
  intros Hh. unfold cleaned_up.
  destruct (timers st !! userID) as [h0|]; cbn; [|reflexivity].
  apply lookup_delete_ne. congruence.
Qed.

(** The call-end handler releases everything it holds for the caller: the
    [timers], [activeCalls] and [members] entries are gone and the handle
    that [timers] held is no longer scheduled.  It does so whether or not a
    call, a registration or a timer existed. *)
Theorem handleCallEnd_clears (event : CallEvent) (st : State) :
  let st' := exec (handleCallEnd event) st in
  timers st' !! ev_userID event = None ∧
  activeCalls st' !! ev_userID event = None ∧
  members st' !! ev_userID event = None ∧
  ∀ h, timers st !! ev_userID event = Some h → scheduled st' !! h = None.
Proof.
  cbv zeta. rewrite handleCallEnd_state. apply cleaned_up_lookup.
Qed.

(** The call-end handler touches one caller only: the entries of every other
    identity are as before, no handle is handed out, and every scheduled
    timer except the one tracked for the caller stays scheduled. *)
Theorem handleCallEnd_frame (event : CallEvent) (st : State)
    (other : JsValue) (h : Timeout) :
  let st' := exec (handleCallEnd event) st in
  (other ≠ ev_userID event →
   activeCalls st' !! other = activeCalls st !! other ∧
   members st' !! other = members st !! other ∧
   timers st' !! other = timers st !! other) ∧
  (timers st !! ev_userID event ≠ Some h →
   scheduled st' !! h = scheduled st !! h) ∧
  nextTimeout st' = nextTimeout st.
Proof.
  cbv zeta. rewrite handleCallEnd_state. split; [|split].
  - apply cleaned_up_frame.
  - apply cleaned_up_scheduled.
  - unfold cleaned_up. destruct (timers st !! ev_userID event); reflexivity.
Qed.

Lemma handleCallEnd_frame_witness :
  let st' := exec (handleCallEnd (call_end "CA1")) in_call in
  members st' !! JStr "+15550000000" = members in_call !! JStr "+15550000000" ∧
  scheduled st' !! 7%N = scheduled in_call !! 7%N.
Proof.
  destruct (handleCallEnd_frame (call_end "CA1") in_call (JStr "+15550000000") 7%N)
    as (Hother & Hsched & _).
  cbv zeta. split.
  - apply Hother. discriminate.
  - apply Hsched. vm_compute. discriminate.
Defined.

(** A repeated call-end event changes nothing more: handling it a second
    time leaves the state reached after the first. *)
Theorem handleCallEnd_idempotent (event : CallEvent) (st : State) :
  exec (handleCallEnd event) (exec (handleCallEnd event) st) =
  exec (handleCallEnd event) st.
Proof.
  rewrite !handleCallEnd_state. apply cleaned_up_idempotent.
Qed.

(** A natural call end and a successful forced termination converge: the
    state after the call-end handler is the state after [endCall]'s cleanup
    for the same caller. *)
Theorem handleCallEnd_same_as_termination (event : CallEvent) (sid : JsValue)
    (st : State) :
  exec (handleCallEnd event) st =
  exec (endCall_settle (ev_userID event) sid Resolved) st.
Proof.
  rewrite handleCallEnd_state. unfold exec.
  now rewrite endCall_settle_resolved.
Qed.

(** The webhook endpoint always answers 200 and never raises; an event whose
    type is neither call-start nor call-end is ignored: no state change, no
    log line, no request. *)
Theorem post_api_call_webhook_responds (event : CallEvent) (now : Z) (st : State) :
  ∃ st' tr,
    post_api_call_webhook event now st = (Normal success, st', tr) ∧
    (ev_type event ≠ JStr "runtime.call.start" →
     ev_type event ≠ JStr "runtime.call.end" →
     st' = st ∧ tr = []).
Proof.
  pose proof (post_api_call_webhook_state event now st) as Hstate.
  unfold post_api_call_webhook in *. unfold exec, mbind, M_bind in *.
  destruct (bool_decide_reflect (ev_type event = JStr "runtime.call.start")) as [Hs|Hs].
  - destruct (handleCallStart event now st) as [[[[]|e] st1] tr1] eqn:Hrun.
    + eexists _, _. split; [reflexivity|]. intros Hn. now destruct Hn.
    + exfalso. revert Hrun. unfold handleCallStart. repeat (unfold_monad; cbn).
      destruct (members st !! ev_userID event); discriminate.
  - destruct (bool_decide_reflect (ev_type event = JStr "runtime.call.end")) as [He|He].
    + destruct (handleCallEnd event st) as [[[[]|e] st1] tr1] eqn:Hrun.
      * eexists _, _. split; [reflexivity|]. intros _ Hn. now destruct Hn.
      * exfalso. revert Hrun. unfold handleCallEnd. repeat (unfold_monad; cbn).
        destruct (timers st !! ev_userID event); repeat (unfold_monad; cbn);
          destruct (members st !! ev_userID event); discriminate.
    + eexists _, _. split; [reflexivity|]. intros _ _. split; reflexivity.
Qed.

Lemma post_api_call_webhook_responds_witness :
  ∃ st' tr,
    post_api_call_webhook
      {| ev_type := JStr "runtime.call.transfer"; ev_userID := caller;
         ev_metadata := {| md_callSid := JStr "CA1"; md_other := [] |} |}
      5000 in_call = (Normal success, st', tr) ∧
    st' = in_call ∧ tr = [].
Proof.
  destruct (post_api_call_webhook_responds
              {| ev_type := JStr "runtime.call.transfer"; ev_userID := caller;
                 ev_metadata := {| md_callSid := JStr "CA1"; md_other := [] |} |}
              5000 in_call) as (st' & tr & Hrun & Hignored).
  exists st', tr. split; [exact Hrun|].
  apply Hignored; discriminate.
Defined.

(** A call that starts for a caller without a registration is recorded and
    left untimed: the [activeCalls] entry holds the call identifier, the
    start time and the metadata of the event, and no timer is armed ([timers]
    and the scheduled timers are as before, no handle is handed out). *)
Theorem handleCallStart_unregistered (event : CallEvent) (now : Z) (st : State) :
  members st !! ev_userID event = None →
  let st' := exec (handleCallStart event now) st in
  activeCalls st' !! ev_userID event =
    Some {| callSid := md_callSid (ev_metadata event); startTime := now;
            metadata := ev_metadata event |} ∧
  timers st' = timers st ∧
  scheduled st' = scheduled st ∧
  nextTimeout st' = nextTimeout st ∧
  members st' = members st.
Proof.
  intros Hm. cbv zeta. rewrite (handleCallStart_untimed event now st Hm).
  cbn. rewrite lookup_insert_eq. repeat split.
Qed.

Lemma handleCallStart_unregistered_witness :
  let st' := exec (handleCallStart (call_start "CA1") 1000) initial in
  activeCalls st' !! caller =
    Some {| callSid := JStr "CA1"; startTime := 1000;
            metadata := {| md_callSid := JStr "CA1"; md_other := [] |} |} ∧
  scheduled st' = scheduled initial.
Proof.
  destruct (handleCallStart_unregistered (call_start "CA1") 1000 initial)
    as (Ha & _ & Hs & _).
  - reflexivity.
  - cbv zeta. split; [exact Ha | exact Hs].
Defined.

(** A call that starts for a registered caller is recorded and timed: a
    timer with the registered limit as delay, aimed at this caller and this
    call, is scheduled under a fresh handle and [timers] holds that handle;
    the registration itself is not changed, and the entries of other callers
    are untouched. *)
Theorem handleCallStart_registered (event : CallEvent) (now : Z) (st : State)
    (member : Member) (other : JsValue) :
  members st !! ev_userID event = Some member →
  let st' := exec (handleCallStart event now) st in
  activeCalls st' !! ev_userID event =
    Some {| callSid := md_callSid (ev_metadata event); startTime := now;
            metadata := ev_metadata event |} ∧
  timers st' !! ev_userID event = Some (nextTimeout st) ∧
  scheduled st' !! nextTimeout st =
    Some {| task_userID := ev_userID event;
            task_callSid := md_callSid (ev_metadata event);
            task_delay := timeLimit member |} ∧
  members st' = members st ∧
  (other ≠ ev_userID event →
   activeCalls st' !! other = activeCalls st !! other ∧
   timers st' !! other = timers st !! other).
Proof.
  intros Hm. cbv zeta.
  destruct (handleCallStart_timed event now st member Hm)
    as (-> & -> & -> & -> & _).
  rewrite !lookup_insert_eq. repeat split;
    now rewrite lookup_insert_ne by congruence.
Qed.

Lemma handleCallStart_registered_witness :
  let st := exec (post_api_member (registration "1s")) initial in
  let st' := exec (handleCallStart (call_start "CA1") 1000) st in
  timers st' !! caller = Some (nextTimeout st) ∧
  scheduled st' !! nextTimeout st =
    Some {| task_userID := caller; task_callSid := JStr "CA1";
            task_delay := 1000 |}.
Proof.
  destruct (handleCallStart_registered (call_start "CA1") 1000
              (exec (post_api_member (registration "1s")) initial)
              {| timeLimit := 1000; endMessage := JStr DEFAULT_END_MESSAGE |}
              JNull)
    as (_ & Ht & Hs & _).
  - vm_compute. reflexivity.
  - cbv zeta. split; [exact Ht | exact Hs].
Defined.

Lemma handleCallEnd_clears_witness :
  let st' := exec (handleCallEnd (call_end "CA1")) in_call in
  timers st' !! caller = None ∧ scheduled st' !! 0%N = None.
Proof.
  destruct (handleCallEnd_clears (call_end "CA1") in_call) as (Ht & _ & _ & Hs).
  cbv zeta. split; [exact Ht|]. apply Hs. vm_compute. reflexivity.
Defined.

(** ** More on the registration endpoint *)

(** A registration that arrives while the caller has a call in progress
    starts the countdown afresh: a timer with the full new limit as delay,
    aimed at the call in progress, is scheduled under a fresh handle that
    [timers] now holds, and the timer [timers] held before is cleared. *)
Theorem post_api_member_rearms (req : MemberBody) (st : State) (ms : JsNumber)
    (callData : CallData) :
  truthy (req_userID req) = true →
  parseDuration (req_duration req) = Normal ms →
  activeCalls st !! req_userID req = Some callData →
  let st' := exec (post_api_member req) st in
  timers st' !! req_userID req = Some (nextTimeout st) ∧
  scheduled st' !! nextTimeout st =
    Some {| task_userID := req_userID req; task_callSid := callSid callData;
            task_delay := ms |} ∧
  (timeLimit <$> members st' !! req_userID req) = Some ms ∧
  ∀ h, timers st !! req_userID req = Some h → h ≠ nextTimeout st →
       scheduled st' !! h = None.
Proof.
  intros Ht Hp Hactive. cbv zeta. unfold exec.
  destruct (post_api_member_accepts req st ms Ht Hp)
    as (st1 & tr & -> & _ & Hm & _ & Hcase).
  cbn [fst snd]. rewrite Hactive in Hcase. destruct Hcase as (-> & -> & _).
  rewrite Hm, !lookup_insert_eq. repeat split.
  intros h Hh Hfresh. rewrite Hh.
  rewrite lookup_insert_ne by congruence. apply lookup_delete_eq.
Qed.

Lemma post_api_member_rearms_witness :
  let st' := exec (post_api_member (registration "5m")) in_call in
  timers st' !! caller = Some 1%N ∧
  scheduled st' !! 1%N =
    Some {| task_userID := caller; task_callSid := JStr "CA1";
            task_delay := 300000 |} ∧
  scheduled st' !! 0%N = None.
Proof.
  destruct (post_api_member_rearms (registration "5m") in_call 300000
              {| callSid := JStr "CA1"; startTime := 1000;
                 metadata := {| md_callSid := JStr "CA1"; md_other := [] |} |})
    as (Ht & Hs & _ & Hold); try (vm_compute; reflexivity).
  cbv zeta. split; [exact Ht|]. split; [exact Hs|].
  apply Hold; [vm_compute; reflexivity | vm_compute; discriminate].
Defined.

(** A registration for a caller without a call in progress only stores the
    configuration: no timer is scheduled or cleared, [timers] is unchanged
    and no handle is handed out. *)
Theorem post_api_member_no_call (req : MemberBody) (st : State) (ms : JsNumber) :
  truthy (req_userID req) = true →
  parseDuration (req_duration req) = Normal ms →
  activeCalls st !! req_userID req = None →
  let st' := exec (post_api_member req) st in
  timers st' = timers st ∧
  scheduled st' = scheduled st ∧
  nextTimeout st' = nextTimeout st ∧
  (timeLimit <$> members st' !! req_userID req) = Some ms.
Proof.
  intros Ht Hp Hnone. cbv zeta. unfold exec.
  destruct (post_api_member_accepts req st ms Ht Hp)
    as (st1 & tr & -> & _ & Hm & _ & Hcase).
  cbn [fst snd]. rewrite Hnone in Hcase. destruct Hcase as (-> & -> & ->).
  rewrite Hm, lookup_insert_eq. repeat split.
Qed.

Lemma post_api_member_no_call_witness :
  let st' := exec (post_api_member (registration "30s")) initial in
  scheduled st' = scheduled initial ∧
  (timeLimit <$> members st' !! caller) = Some (Finite 30000).
Proof.
  destruct (post_api_member_no_call (registration "30s") initial 30000)
    as (_ & Hs & _ & Hm); try reflexivity.
  cbv zeta. split; [exact Hs | exact Hm].
Defined.

(** The registration endpoint touches one caller only: whatever the request
    and its outcome, the [members] and [timers] entries of every other
    identity are as before, and nothing that is awaiting the provider is
    disturbed. *)
Theorem post_api_member_frame (req : MemberBody) (st : State) (other : JsValue) :
  other ≠ req_userID req →
  let st' := exec (post_api_member req) st in
  members st' !! other = members st !! other ∧
  timers st' !! other = timers st !! other ∧
  awaiting st' = awaiting st.
Proof.
  intros Hne. cbv zeta. unfold exec.
  destruct (truthy (req_userID req)) eqn:Ht.
  - destruct (parseDuration (req_duration req)) as [ms|e] eqn:Hp.
    + destruct (post_api_member_accepts req st ms Ht Hp)
        as (st1 & tr & -> & _ & Hm & Haw & Hcase).
      cbn [fst snd]. rewrite Hm, lookup_insert_ne by congruence.
      split; [reflexivity|]. split; [|exact Haw].
      destruct (activeCalls st !! req_userID req).
      * destruct Hcase as (-> & _). now rewrite lookup_insert_ne by congruence.
      * destruct Hcase as (-> & _). reflexivity.
    + rewrite (post_api_member_throws req st e Ht Hp). repeat split.
  - rewrite (post_api_member_rejects req st Ht). repeat split.
Qed.

Lemma post_api_member_frame_witness :
  let st' := exec (post_api_member (registration "5m")) in_call in
  members st' !! JStr "+15550000000" = members in_call !! JStr "+15550000000" ∧
  timers st' !! JStr "+15550000000" = timers in_call !! JStr "+15550000000" ∧
  awaiting st' = awaiting in_call.
Proof.
  apply (post_api_member_frame (registration "5m") in_call (JStr "+15550000000")).
  discriminate.
Defined.

(** ** From registration to expiry *)

Lemma endCall_request_trace (userID sid : JsValue) (st : State) :
  is_Some (activeCalls st !! userID) →
  endCall_request userID sid st =
    (Normal true, st,
     [ConsoleLog (TimeLimitReached (obfuscatePhone userID) sid);
      ConsoleLog InitializeTwilioClient;
      ConsoleLog (SendingTwiML [Pause 2; Say (end_message_for st userID); Hangup]);
      CallsUpdate sid [Pause 2; Say (end_message_for st userID); Hangup]]).
Proof.
  intros [callData Hactive]. unfold endCall_request, end_message_for.
  repeat (unfold_monad; cbn). rewrite Hactive. repeat (unfold_monad; cbn).
  destruct (members st !! userID); reflexivity.
Qed.

Lemma endCall_request_state (userID sid : JsValue) (st : State) :
  ∃ r tr, endCall_request userID sid st = (Normal r, st, tr).
Proof.
  destruct (activeCalls st !! userID) as [callData|] eqn:Hactive.
  - rewrite endCall_request_trace by eauto. eauto.
  - rewrite endCall_request_inactive by assumption. eauto.
Qed.

(** Registration, call start, expiry: after an accepted registration and a
    call-start event for the same caller, a timer with the registered limit
    is tracked and scheduled for that call; when it runs [endCall] and the
    provider accepts, the one request sent tells the provider to pause, say
    the registered end message (the default sentence if none was given) and
    hang up on that call, and afterwards the caller has no [timers],
    [activeCalls] or [members] entry and the timer is no longer scheduled. *)
Theorem timed_call_expires (req : MemberBody) (event : CallEvent) (now : Z)
    (ms : JsNumber)
    (st : State) :
  truthy (req_userID req) = true →
  parseDuration (req_duration req) = Normal ms →
  ev_userID event = req_userID req →
  let userID := req_userID req in
  let sid := md_callSid (ev_metadata event) in
  let st2 := exec (handleCallStart event now) (exec (post_api_member req) st) in
  ∃ h st3 tr,
    timers st2 !! userID = Some h ∧
    scheduled st2 !! h =
      Some {| task_userID := userID; task_callSid := sid; task_delay := ms |} ∧
    endCall userID sid Resolved st2 = (Normal tt, st3, tr) ∧
    CallsUpdate sid
      [Pause 2; Say (js_or (req_endMessage req) (JStr DEFAULT_END_MESSAGE)); Hangup]
      ∈ tr ∧
    (∀ target twiml, CallsUpdate target twiml ∈ tr → target = sid) ∧
    timers st3 !! userID = None ∧
    activeCalls st3 !! userID = None ∧
    members st3 !! userID = None ∧
    scheduled st3 !! h = None.
Proof.
  intros Ht Hp Hu. cbv zeta.
  set (st1 := exec (post_api_member req) st).
  assert (Hm1 : members st1 !! ev_userID event = Some (registered_member req ms)).
  { unfold st1, exec.
    destruct (post_api_member_accepts req st ms Ht Hp) as (s & tr & -> & _ & Hm & _).
    cbn [fst snd]. now rewrite Hm, Hu, lookup_insert_eq. }
  destruct (handleCallStart_timed event now st1 _ Hm1)
    as (Hac & Hmem & Htim & Hsch & _).
  set (st2 := exec (handleCallStart event now) st1) in *.
  assert (Hactive : is_Some (activeCalls st2 !! req_userID req)).
  { rewrite Hac, <- Hu, lookup_insert_eq. eauto. }
  assert (Htracked : timers st2 !! req_userID req = Some (nextTimeout st1)).
  { now rewrite Htim, <- Hu, lookup_insert_eq. }
  exists (nextTimeout st1), (cleaned_up (req_userID req) st2). eexists.
  split; [exact Htracked|].
  split; [rewrite Hsch, lookup_insert_eq; unfold start_task; cbn; now rewrite Hu|].
  split.
  { unfold endCall. unfold mbind at 1, M_bind.
    rewrite (endCall_request_trace _ _ _ Hactive).
    rewrite endCall_settle_resolved. reflexivity. }
  assert (Hmsg : end_message_for st2 (req_userID req) =
                 js_or (req_endMessage req) (JStr DEFAULT_END_MESSAGE)).
  { unfold end_message_for. now rewrite Hmem, <- Hu, Hm1. }
  rewrite Hmsg. split; [|split].
  - do 3 apply list_elem_of_further. apply list_elem_of_here.
  - intros target twiml Hin.
    repeat (apply elem_of_cons in Hin as [Heq|Hin];
            [try discriminate Heq; now injection Heq|]).
    now apply elem_of_nil in Hin.
  - destruct (cleaned_up_lookup (req_userID req) st2) as (H1 & H2 & H3 & H4).
    repeat split; try assumption. now apply H4.
Qed.

Lemma timed_call_expires_witness :
  let st2 := exec (handleCallStart (call_start "CA1") 1000)
               (exec (post_api_member (registration "1s")) initial) in
  ∃ h st3 tr,
    scheduled st2 !! h =
      Some {| task_userID := caller; task_callSid := JStr "CA1";
              task_delay := 1000 |} ∧
    endCall caller (JStr "CA1") Resolved st2 = (Normal tt, st3, tr) ∧
    members st3 !! caller = None.
Proof.
  destruct (timed_call_expires (registration "1s") (call_start "CA1") 1000 1000 initial)
    as (h & st3 & tr & _ & Hs & Hrun & _ & _ & _ & _ & Hm & _); try reflexivity.
  cbv zeta. exists h, st3, tr. split; [exact Hs|]. split; [exact Hrun | exact Hm].
Defined.

(** ** Invariants of the event loop *)

Lemma cleaned_up_effect (userID : JsValue) (st : State) :
  turn_effect st (cleaned_up userID st) None.
Proof.
  apply (effect_cleaned _ _ userID); unfold cleaned_up;
    destruct (timers st !! userID); reflexivity.
Qed.

Lemma post_api_member_effect (req : MemberBody) (st : State) :
  turn_effect st (exec (post_api_member req) st) None.
Proof.
  unfold exec.
  destruct (truthy (req_userID req)) eqn:Ht.
  - destruct (parseDuration (req_duration req)) as [ms|e] eqn:Hp.
    + destruct (post_api_member_accepts req st ms Ht Hp)
        as (st1 & tr & -> & Hac & Hm & _ & Hcase).
      cbn [fst snd].
      destruct (activeCalls st !! req_userID req) as [callData|] eqn:Hactive.
      * destruct Hcase as (Htim & Hsch & Hnext).
        now apply (effect_rearmed _ _ (req_userID req)
                     (registered_member req ms) callData).
      * destruct Hcase as (Htim & Hsch & Hnext).
        now apply (effect_registered _ _ (req_userID req)
                     (registered_member req ms)).
    + rewrite (post_api_member_throws req st e Ht Hp).
      apply effect_none; auto.
  - rewrite (post_api_member_rejects req st Ht). apply effect_none; auto.
Qed.

Lemma handleCallStart_effect (event : CallEvent) (now : Z) (st : State) :
  turn_effect st (exec (handleCallStart event now) st) (Some (ev_userID event)).
Proof.
  destruct (members st !! ev_userID event) as [member|] eqn:Hm.
  - destruct (handleCallStart_timed event now st member Hm)
      as (Hac & Hmem & Htim & Hsch & Hnext & _).
    now apply (effect_started_timed _ _ (ev_userID event)
                 (started event now) member).
  - rewrite (handleCallStart_untimed event now st Hm).
    now apply (effect_started_untimed _ _ (ev_userID event) (started event now)).
Qed.

Lemma turn_has_effect (st st' : State) (i : Input) :
  turn st i = Some st' → turn_effect st st' (starting i).
Proof.
  destruct i as [req|event now|h|k o]; cbn [turn starting].
  - intros [= <-]. apply post_api_member_effect.
  - intros [= <-]. rewrite post_api_call_webhook_state.
    destruct (bool_decide (ev_type event = JStr "runtime.call.start"));
      [apply handleCallStart_effect|].
    destruct (bool_decide (ev_type event = JStr "runtime.call.end")).
    + rewrite handleCallEnd_state. apply cleaned_up_effect.
    + apply effect_none; auto.
  - destruct (scheduled st !! h) as [task|]; [|discriminate].
    destruct (endCall_request_state (task_userID task) (task_callSid task)
                (with_scheduled (delete h) st)) as (r & tr & ->).
    destruct r; intros [= <-]; apply effect_none; cbn; eauto.
  - destruct (awaiting st !! k) as [[userID sid]|]; [|discriminate].
    intros [= <-]. unfold exec. destruct o.
    + rewrite endCall_settle_resolved. cbn [fst snd].
      apply (effect_cleaned _ _ userID); unfold cleaned_up; cbn;
        destruct (timers st !! userID); reflexivity.
    + rewrite endCall_settle_rejected. apply effect_none; cbn; auto.
Qed.

Lemma scheduled_shrinks (st st' : State) (h : Timeout) (task : TimerTask) :
  (scheduled st' = scheduled st ∨ ∃ h0, scheduled st' = delete h0 (scheduled st)) →
  scheduled st' !! h = Some task → scheduled st !! h = Some task.
Proof.
  intros [-> | [h0 ->]]; [auto|]. now intros [_ ?]%lookup_delete_Some.
Qed.

Lemma cleared_shrinks (st : State) (userID : JsValue) (h : Timeout)
    (task : TimerTask) :
  match timers st !! userID with
  | Some h0 => delete h0 (scheduled st)
  | None => scheduled st
  end !! h = Some task →
  scheduled st !! h = Some task ∧ timers st !! userID ≠ Some h.
Proof.
  destruct (timers st !! userID) as [h0|]; [|now split].
  intros [Hne ?]%lookup_delete_Some. split; [assumption | congruence].
Qed.

Lemma bookkeeping_effect (st st' : State) (s : option JsValue) :
  turn_effect st st' s → bookkeeping st → bookkeeping st'.
Proof.
  intros Heff [Hissued Hcons].
  destruct Heff as [Hac Hm Ht Hn Hs
                   |u member Hnone Hac Hm Ht Hn Hs
                   |u member callData Hactive Hac Hm Ht Hn Hs
                   |u callData Hnone Hac Hm Ht Hn Hs
                   |u callData member Hsome Hac Hm Ht Hn Hs
                   |u Hac Hm Ht Hn Hs];
    split; intros w h; rewrite ?Hac, ?Hm, ?Ht, ?Hn.
  - apply Hissued.
  - intros Hw. destruct (Hcons w h Hw) as (Ha & Hb & Htask).
    split; [assumption | split; [assumption|]]. intros task Hin.
    apply (scheduled_shrinks st st' h task Hs) in Hin. now apply Htask.
  - apply Hissued.
  - intros Hw. destruct (Hcons w h Hw) as (Ha & Hb & Htask).
    assert (w ≠ u) as Hne by (intros ->; rewrite Hnone in Ha; now destruct Ha).
    rewrite Hs, lookup_insert_ne by congruence. auto.
  - destruct (decide (w = u)) as [->|Hne].
    + rewrite lookup_insert_eq. intros [= <-]. lia.
    + rewrite lookup_insert_ne by congruence. intros Hw%Hissued. lia.
  - destruct (decide (w = u)) as [->|Hne].
    + rewrite !lookup_insert_eq. intros [= <-].
      rewrite Hs, lookup_insert_eq, Hactive.
      split; [eauto | split; [eauto|]]. intros task [= <-]. repeat split.
    + rewrite !lookup_insert_ne by congruence. intros Hw.
      destruct (Hcons w h Hw) as (Ha & Hb & Htask).
      pose proof (Hissued w h Hw) as Hlt.
      rewrite Hs, lookup_insert_ne by lia.
      split; [assumption | split; [assumption|]].
      intros task [Hin _]%cleared_shrinks. now apply Htask.
  - apply Hissued.
  - intros Hw. destruct (Hcons w h Hw) as (Ha & Hb & Htask).
    assert (w ≠ u) as Hne by (intros ->; rewrite Hnone in Hb; now destruct Hb).
    rewrite Hs, lookup_insert_ne by congruence. auto.
  - destruct (decide (w = u)) as [->|Hne].
    + rewrite lookup_insert_eq. intros [= <-]. lia.
    + rewrite lookup_insert_ne by congruence. intros Hw%Hissued. lia.
  - destruct (decide (w = u)) as [->|Hne].
    + rewrite !lookup_insert_eq. intros [= <-].
      rewrite Hs, lookup_insert_eq, Hsome.
      split; [eauto | split; [eauto|]]. intros task [= <-]. repeat split.
    + rewrite !lookup_insert_ne by congruence. intros Hw.
      destruct (Hcons w h Hw) as (Ha & Hb & Htask).
      pose proof (Hissued w h Hw) as Hlt.
      rewrite Hs, lookup_insert_ne by lia. auto.
  - intros [_ Hw]%lookup_delete_Some. now apply Hissued in Hw.
  - intros [Hne Hw]%lookup_delete_Some.
    destruct (Hcons w h Hw) as (Ha & Hb & Htask).
    rewrite !lookup_delete_ne by congruence.
    split; [assumption | split; [assumption|]]. rewrite Hs.
    intros task [Hin _]%cleared_shrinks. now apply Htask.
Qed.

Lemma bookkeeping_initial : bookkeeping initial.
Proof. split; intros u h Hu; cbn in Hu; rewrite lookup_empty in Hu; discriminate. Qed.

Lemma bookkeeping_run : ∀ inputs st st',
  run st inputs = Some st' → bookkeeping st → bookkeeping st'.
Proof.
  induction inputs as [|i rest IH]; intros st st' Hrun Hinv; cbn [run] in Hrun.
  - now injection Hrun as <-.
  - destruct (turn st i) as [st1|] eqn:Hturn; [|discriminate].
    apply (IH st1 st' Hrun).
    exact (bookkeeping_effect st st1 _ (turn_has_effect st st1 i Hturn) Hinv).
Qed.

(** In every reachable state, a caller for whom [timers] holds a handle has
    an active call and a registration: timers are only tracked for calls in
    progress of registered callers. *)
Theorem tracked_timer_has_call (st : State) (userID : JsValue) (h : Timeout) :
  reachable st →
  timers st !! userID = Some h →
  is_Some (activeCalls st !! userID) ∧ is_Some (members st !! userID).
Proof.
  intros [inputs Hrun] Hh.
  destruct (bookkeeping_run inputs initial st Hrun bookkeeping_initial) as [_ Hcons].
  destruct (Hcons userID h Hh) as (Ha & Hm & _). now split.
Qed.

Lemma tracked_timer_has_call_witness :
  is_Some (activeCalls in_call !! caller) ∧ is_Some (members in_call !! caller).
Proof.
  apply (tracked_timer_has_call in_call caller 0%N).
  - exists [PostMember (registration "1s"); PostCallWebhook (call_start "CA1") 1000].
    vm_compute. reflexivity.
  - vm_compute. reflexivity.
Defined.

(** In every reachable state, the timer that [timers] holds for a caller,
    while it is still scheduled, is aimed at that caller and at the call
    identifier of the caller's current [activeCalls] entry, and its delay is
    the time limit of the caller's current registration. *)
Theorem tracked_timer_targets_call (st : State) (userID : JsValue)
    (h : Timeout) (task : TimerTask) :
  reachable st →
  timers st !! userID = Some h →
  scheduled st !! h = Some task →
  task_userID task = userID ∧
  ∃ callData member,
    activeCalls st !! userID = Some callData ∧
    members st !! userID = Some member ∧
    task_callSid task = callSid callData ∧
    task_delay task = timeLimit member.
Proof.
  intros [inputs Hrun] Hh Htask.
  destruct (bookkeeping_run inputs initial st Hrun bookkeeping_initial) as [_ Hcons].
  destruct (Hcons userID h Hh) as ([callData Ha] & [member Hm] & Hspec).
  destruct (Hspec task Htask) as (Hu & Hsid & Hdelay).
  split; [exact Hu|]. exists callData, member.
  rewrite Ha in Hsid. rewrite Hm in Hdelay. cbn in Hsid, Hdelay.
  repeat split; congruence.
Qed.

Lemma tracked_timer_targets_call_witness :
  ∃ callData member,
    activeCalls in_call !! caller = Some callData ∧
    members in_call !! caller = Some member ∧
    JStr "CA1" = callSid callData ∧
    Finite 1000 = timeLimit member.
Proof.
  destruct (tracked_timer_targets_call in_call caller 0%N
              {| task_userID := caller; task_callSid := JStr "CA1";
                 task_delay := 1000 |}) as (_ & Hrest).
  - exists [PostMember (registration "1s"); PostCallWebhook (call_start "CA1") 1000].
    vm_compute. reflexivity.
  - vm_compute. reflexivity.
  - vm_compute. reflexivity.
  - exact Hrest.
Defined.

Lemma tracked_only_effect (st st' : State) (s : option JsValue) :
  turn_effect st st' s →
  (∀ u, s = Some u → ∀ h, timers st !! u = Some h → scheduled st !! h = None) →
  tracked_only st → tracked_only st'.
Proof.
  intros Heff Horderly Htracked.
  destruct Heff as [Hac Hm Ht Hn Hs
                   |u member Hnone Hac Hm Ht Hn Hs
                   |u member callData Hactive Hac Hm Ht Hn Hs
                   |u callData Hnone Hac Hm Ht Hn Hs
                   |u callData member Hsome Hac Hm Ht Hn Hs
                   |u Hac Hm Ht Hn Hs];
    intros h task; rewrite ?Ht.
  - intros Hin%(scheduled_shrinks st st' h task Hs). now apply Htracked.
  - rewrite Hs. apply Htracked.
  - rewrite Hs. destruct (decide (h = nextTimeout st)) as [->|Hne].
    + rewrite lookup_insert_eq. intros [= <-]. cbn. apply lookup_insert_eq.
    + rewrite lookup_insert_ne by congruence.
      intros [Hin Hold]%cleared_shrinks. pose proof (Htracked h task Hin) as Hk.
      rewrite lookup_insert_ne; [exact Hk | congruence].
  - rewrite Hs. apply Htracked.
  - rewrite Hs. destruct (decide (h = nextTimeout st)) as [->|Hne].
    + rewrite lookup_insert_eq. intros [= <-]. cbn. apply lookup_insert_eq.
    + rewrite lookup_insert_ne by congruence. intros Hin.
      pose proof (Htracked h task Hin) as Hk.
      rewrite lookup_insert_ne; [exact Hk|].
      intros Heq. rewrite <- Heq in Hk.
      rewrite (Horderly u eq_refl h Hk) in Hin. discriminate Hin.
  - rewrite Hs. intros [Hin Hold]%cleared_shrinks.
    pose proof (Htracked h task Hin) as Hk.
    rewrite lookup_delete_ne; [exact Hk | congruence].
Qed.

Lemma orderly_starting (st : State) (i : Input) :
  orderly st i →
  ∀ u, starting i = Some u →
       ∀ h, timers st !! u = Some h → scheduled st !! h = None.
Proof.
  destruct i as [req|event now|h0|k o]; cbn [orderly starting]; try discriminate.
  intros Hord u.
  destruct (bool_decide_reflect (ev_type event = JStr "runtime.call.start"));
    [|discriminate].
  intros [= <-]. now apply Hord.
Qed.

Lemma tracked_only_run : ∀ inputs st st',
  run st inputs = Some st' → all_orderly st inputs →
  tracked_only st → tracked_only st'.
Proof.
  induction inputs as [|i rest IH]; intros st st' Hrun Hord Htracked;
    cbn [run all_orderly] in Hrun, Hord.
  - now injection Hrun as <-.
  - destruct Hord as [Hi Hrest].
    destruct (turn st i) as [st1|] eqn:Hturn; [|discriminate].
    apply (IH st1 st' Hrun Hrest).
    exact (tracked_only_effect st st1 _ (turn_has_effect st st1 i Hturn)
             (orderly_starting st i Hi) Htracked).
Qed.

Lemma live_timers_elem (st : State) (userID : JsValue) (h : Timeout) :
  h ∈ live_timers st userID ↔
  ∃ task, scheduled st !! h = Some task ∧ task_userID task = userID.
Proof.
  unfold live_timers. rewrite list_elem_of_fmap. split.
  - intros ([h0 task] & -> & Hin). exists task.
    apply elem_of_map_to_list in Hin.
    now apply map_lookup_filter_Some in Hin.
  - intros (task & Hin & Hu). exists (h, task). split; [reflexivity|].
    apply elem_of_map_to_list. now apply map_lookup_filter_Some.
Qed.

Lemma live_timers_NoDup (st : State) (userID : JsValue) :
  NoDup (live_timers st userID).
Proof. apply NoDup_fst_map_to_list. Qed.

Lemma tracked_only_single (st : State) (userID : JsValue) :
  tracked_only st → (List.length (live_timers st userID) ≤ 1)%nat.
Proof.
  intros Htracked.
  assert (Hall : ∀ h, h ∈ live_timers st userID → timers st !! userID = Some h).
  { intros h (task & Hin & <-)%live_timers_elem. now apply Htracked. }
  pose proof (live_timers_NoDup st userID) as Hnodup.
  destruct (live_timers st userID) as [|a [|b l]]; cbn; try lia.
  exfalso.
  assert (a = b) as ->.
  { pose proof (Hall a ltac:(left)) as Ha.
    pose proof (Hall b ltac:(right; left)) as Hb. congruence. }
  apply NoDup_cons in Hnodup as [Hnotin _]. apply Hnotin. left.
Qed.

Lemma tracked_only_initial : tracked_only initial.
Proof. intros h task Hin. cbn in Hin. rewrite lookup_empty in Hin. discriminate. Qed.

(** As long as no call-start event arrives for a caller whose tracked timer
    is still scheduled, timers never pile up: after any such sequence of
    requests, timer expiries and provider answers, each caller has at most
    one live timer, and it is the one [timers] holds. *)
Theorem orderly_single_timer (inputs : list Input) (st : State)
    (userID : JsValue) :
  all_orderly initial inputs →
  run initial inputs = Some st →
  (List.length (live_timers st userID) ≤ 1)%nat ∧
  ∀ h, h ∈ live_timers st userID → timers st !! userID = Some h.
Proof.
  intros Hord Hrun.
  pose proof (tracked_only_run inputs initial st Hrun Hord tracked_only_initial)
    as Htracked.
  split; [now apply tracked_only_single|].
  intros h (task & Hin & <-)%live_timers_elem. now apply Htracked.
Qed.

Lemma rearmed_call_orderly : all_orderly initial rearmed_call.
Proof.
  vm_compute. repeat split.
Qed.

Lemma orderly_single_timer_witness :
  (List.length (live_timers (default initial (run initial rearmed_call)) caller) ≤ 1)%nat.
Proof.
  apply (orderly_single_timer rearmed_call
           (default initial (run initial rearmed_call)) caller).
  - exact rearmed_call_orderly.
  - vm_compute. reflexivity.
Defined.

(** When every scheduled timer is the tracked one, a call-end event leaves
    no live timer aimed at the caller: nothing is left that could end the
    call after it has ended. *)
Theorem handleCallEnd_disarms (event : CallEvent) (st : State) :
  tracked_only st →
  live_timers (exec (handleCallEnd event) st) (ev_userID event) = [].
Proof.
  intros Htracked. rewrite handleCallEnd_state.
  assert (Htracked' : tracked_only (cleaned_up (ev_userID event) st)).
  { apply (tracked_only_effect st _ None (cleaned_up_effect _ st)); [|assumption].
    intros u Hu. discriminate Hu. }
  destruct (live_timers (cleaned_up (ev_userID event) st) (ev_userID event))
    as [|h l] eqn:Hlive; [reflexivity|].
  assert (Hin : h ∈ live_timers (cleaned_up (ev_userID event) st) (ev_userID event)).
  { rewrite Hlive. left. }
  apply live_timers_elem in Hin as (task & Hin & Hu).
  apply Htracked' in Hin. rewrite Hu in Hin.
  destruct (cleaned_up_lookup (ev_userID event) st) as (Hnone & _).
  rewrite Hnone in Hin. discriminate Hin.
Qed.

Lemma handleCallEnd_disarms_witness :
  live_timers (exec (handleCallEnd (call_end "CA1")) in_call) caller = [].
Proof.
  apply (handleCallEnd_disarms (call_end "CA1") in_call).
  apply (tracked_only_run
           [PostMember (registration "1s"); PostCallWebhook (call_start "CA1") 1000]
           initial in_call).
  - vm_compute. reflexivity.
  - vm_compute. repeat split.
  - exact tracked_only_initial.
Defined.

(** [endCall] does not compare the call identifier it was given with the one
    of the caller's current call: whenever the caller has an active call,
    the request goes to the identifier captured when the timer was armed,
    and on success the caller's current entries are released. *)
Theorem endCall_trusts_captured_sid (userID sid : JsValue) (st : State)
    (callData : CallData) :
  activeCalls st !! userID = Some callData →
  ∃ st' tr,
    endCall userID sid Resolved st = (Normal tt, st', tr) ∧
    CallsUpdate sid [Pause 2; Say (end_message_for st userID); Hangup] ∈ tr ∧
    (∀ target twiml, CallsUpdate target twiml ∈ tr → target = sid) ∧
    activeCalls st' !! userID = None ∧
    members st' !! userID = None ∧
    timers st' !! userID = None.
Proof.
  intros Hactive.
  exists (cleaned_up userID st). eexists. split.
  { unfold endCall. unfold mbind at 1, M_bind.
    rewrite (endCall_request_trace userID sid st) by eauto.
    rewrite endCall_settle_resolved. reflexivity. }
  split; [|split].
  - do 3 apply list_elem_of_further. apply list_elem_of_here.
  - intros target twiml Hin.
    repeat (apply elem_of_cons in Hin as [Heq|Hin];
            [try discriminate Heq; now injection Heq|]).
    now apply elem_of_nil in Hin.
  - destruct (cleaned_up_lookup userID st) as (H1 & H2 & H3 & _). auto.
Qed.

Lemma endCall_trusts_captured_sid_witness :
  let st := default initial (run initial overlapping_calls) in
  (callSid <$> activeCalls st !! caller) = Some (JStr "CA2") ∧
  ∃ st' tr,
    endCall caller (JStr "CA1") Resolved st = (Normal tt, st', tr) ∧
    (∀ target twiml, CallsUpdate target twiml ∈ tr → target = JStr "CA1") ∧
    activeCalls st' !! caller = None.
Proof.
  cbv zeta. split; [vm_compute; reflexivity|].
  destruct (endCall_trusts_captured_sid caller (JStr "CA1")
              (default initial (run initial overlapping_calls))
              {| callSid := JStr "CA2"; startTime := 2000;
                 metadata := {| md_callSid := JStr "CA2"; md_other := [] |} |})
    as (st' & tr & Hrun & _ & Honly & Ha & _).
  - vm_compute. reflexivity.
  - exists st', tr. split; [exact Hrun|]. split; [exact Honly | exact Ha].
Defined.

(** ** More on the helpers *)

Lemma substring_prefix_append : ∀ kept rest : string,
  substring 0 (String.length kept) (kept +:+ rest) = kept.
Proof.
  induction kept as [|a kept IH]; intros rest.
  - cbn [String.length]. now destruct ("" +:+ rest).
  - rewrite append_cons. cbn [String.length substring]. now rewrite IH.
Qed.

(** The redacted form of a number does not depend on its last five
    characters: whatever they are, the result is the rest of the number
    followed by "xxxxx", so two numbers that differ only there are logged
    alike. *)
Theorem obfuscatePhone_hides_last5 (kept last5 other5 : string) :
  String.length last5 = 5%nat →
  String.length other5 = 5%nat →
  obfuscatePhone (JStr (kept +:+ last5)) = kept +:+ "xxxxx" ∧
  obfuscatePhone (JStr (kept +:+ last5)) = obfuscatePhone (JStr (kept +:+ other5)).
Proof.
  assert (Hone : ∀ tail, String.length tail = 5%nat →
                         obfuscatePhone (JStr (kept +:+ tail)) = kept +:+ "xxxxx").
  { intros tail Hlen.
    rewrite obfuscatePhone_long by (rewrite append_length; lia).
    rewrite append_length, Hlen.
    replace (String.length kept + 5 - 5)%nat with (String.length kept) by lia.
    now rewrite substring_prefix_append. }
  intros H1 H2. split; [now apply Hone|]. now rewrite !Hone.
Qed.

Lemma obfuscatePhone_hides_last5_witness :
  obfuscatePhone (JStr ("+155512" +:+ "30000")) = "+155512" +:+ "xxxxx" ∧
  obfuscatePhone (JStr ("+155512" +:+ "30000")) =
  obfuscatePhone (JStr ("+155512" +:+ "99999")).
Proof.
  apply (obfuscatePhone_hides_last5 "+155512" "30000" "99999"); reflexivity.
Defined.

(** ** Outcomes and round trips *)

(** The registration endpoint answers 200 exactly when [userID] is truthy
    and [duration] is falsy or a string; a falsy [userID] gives 400 and any
    other request ends in an uncaught TypeError. *)
Theorem post_api_member_outcome (req : MemberBody) (st : State) :
  ((∃ st' tr, post_api_member req st = (Normal success, st', tr)) ↔
   truthy (req_userID req) = true ∧
   (truthy (req_duration req) = false ∨ is_string (req_duration req) = true)) ∧
  (truthy (req_userID req) = false →
   ∃ resp, post_api_member req st = (Normal resp, st, []) ∧ status resp = 400) ∧
  (truthy (req_userID req) = true → truthy (req_duration req) = true →
   is_string (req_duration req) = false →
   post_api_member req st = (Throw TypeError, st, [])).
Proof.
  split; [|split].
  - split.
    + intros (st' & tr & Hrun).
      apply post_api_member_success_inv in Hrun as (Hu & ms & Hp & _).
      split; [exact Hu|].
      destruct (truthy (req_duration req)) eqn:Ht; [|now left]. right.
      destruct (req_duration req); try reflexivity;
        unfold parseDuration in Hp; rewrite Ht in Hp; discriminate Hp.
    + intros (Hu & Hd).
      assert (∃ ms, parseDuration (req_duration req) = Normal ms) as [ms Hp].
      { destruct Hd as [Hf | Hs].
        - exists DEFAULT_TIME_LIMIT. unfold parseDuration. now rewrite Hf.
        - destruct (req_duration req) as [| | | |s|]; try discriminate Hs.
          destruct (parseDuration_cases (JStr s))
            as [Hd | [Hthrow | (s' & digits & unit & [= <-] & Htok)]].
          + eauto.
          + exfalso. revert Hthrow. unfold parseDuration.
            destruct (negb (truthy (JStr s))); [discriminate|].
            destruct (match_duration s) as [[ds u]|]; [|discriminate].
            cbn. destruct (Ascii.eqb u "s"); [discriminate|].
            destruct (Ascii.eqb u "m"); discriminate.
          + rewrite (parseDuration_token _ _ _ Htok). eauto. }
      destruct (post_api_member_accepts req st ms Hu Hp) as (st' & tr & Hrun & _).
      eauto.
  - intros Hf. rewrite (post_api_member_rejects req st Hf). eauto.
  - intros Hu Ht Hs. apply post_api_member_throws; [exact Hu|].
    unfold parseDuration. rewrite Ht.
    destruct (req_duration req); try reflexivity; discriminate Hs.
Qed.

Lemma post_api_member_outcome_witness :
  (∃ st' tr, post_api_member (registration "soon") initial
             = (Normal success, st', tr)) ∧
  (∃ resp, post_api_member
             {| req_userID := JStr ""; req_duration := JStr "30s";
                req_endMessage := JUndefined |} initial = (Normal resp, initial, []) ∧
           status resp = 400).
Proof.
  destruct (post_api_member_outcome (registration "soon") initial) as ([_ Hok] & _).
  destruct (post_api_member_outcome
              {| req_userID := JStr ""; req_duration := JStr "30s";
                 req_endMessage := JUndefined |} initial) as (_ & Hbad & _).
  split.
  - apply Hok. split; [reflexivity | right; reflexivity].
  - apply Hbad. reflexivity.
Defined.

Lemma cleaned_up_unknown (userID : JsValue) (st : State) :
  activeCalls st !! userID = None →
  members st !! userID = None →
  timers st !! userID = None →
  cleaned_up userID st = st.
Proof.
  intros Ha Hm Ht. unfold cleaned_up. rewrite Ht.
  unfold with_members, with_activeCalls, with_timers. cbn.
  rewrite (delete_id _ _ Ha), (delete_id _ _ Hm), (delete_id _ _ Ht).
  now destruct st.
Qed.

(** A caller the service knows nothing about: a call-end event for such a
    caller changes nothing, and a call that starts and ends without a
    registration leaves the state exactly as it was before the call. *)
Theorem unregistered_call_round_trip (event ending : CallEvent) (now : Z)
    (st : State) :
  ev_userID ending = ev_userID event →
  activeCalls st !! ev_userID event = None →
  members st !! ev_userID event = None →
  timers st !! ev_userID event = None →
  exec (handleCallEnd ending) st = st ∧
  exec (handleCallEnd ending) (exec (handleCallStart event now) st) = st.
Proof.
  intros Hu Ha Hm Ht. rewrite !handleCallEnd_state, Hu.
  split; [now apply cleaned_up_unknown|].
  rewrite (handleCallStart_untimed event now st Hm).
  unfold cleaned_up. cbn. rewrite Ht.
  unfold with_members, with_activeCalls, with_timers. cbn.
  rewrite delete_insert_eq.
  rewrite (delete_id _ _ Ha), (delete_id _ _ Hm), (delete_id _ _ Ht).
  now destruct st.
Qed.

Lemma unregistered_call_round_trip_witness :
  exec (handleCallEnd (call_end "CA1"))
    (exec (handleCallStart (call_start "CA1") 1000) initial) = initial.
Proof.
  apply (unregistered_call_round_trip (call_start "CA1") (call_end "CA1") 1000 initial);
    reflexivity.
Defined.
